(** * EMA workbench: samplers, design assembly, evaluators and CART trees

    A shallow embedding of [ema_workbench/em_framework/samplers.py],
    [ema_workbench/em_framework/evaluators.py] and the tree walk of
    [ema_workbench/analysis/cart.py].

    An int is a [Z]. In the main development a float is idealised as a
    rational [Q]: it serves for what does not depend on rounding (which
    calls are made and in what order, which exceptions are raised, how many
    designs there are, which keys they have). What [_pert], [_beta] and
    [_lhs] compute on IEEE binary64 numbers is embedded a second time in
    module [B64], over Rocq's primitive floats, and the properties of the
    numbers themselves are stated there.
    Exceptions are an explicit [result] type; code that draws random numbers,
    logs, or touches the process state runs in a state-and-exception monad
    over a [world]. External libraries (numpy's generator, scipy's
    distributions, the simulation models) are fields of a [Runtime] /
    [Collaborators] interface. *)

From Stdlib Require Import PrimFloat SpecFloat FloatOps Uint63 ZArith QArith Qround Qabs Lia Lqa Permutation.
From stdpp Require Import base option list gmap strings sorting.

Local Open Scope string_scope.
Local Open Scope list_scope.

(** ** Python values and exceptions *)

Inductive pyval : Type :=
| VFloat (q : Q)
| VInt (z : Z)
| VBool (b : bool)
| VStr (s : string).

(** [parameters.Category]: a named wrapper around a categorical value. *)
Record Category : Type := { cat_name : string; cat_value : pyval }.

(** An entry of a raw design: a plain value or a [Category] object. *)
Inductive raw : Type :=
| RVal (v : pyval)
| RCat (c : Category).

Inductive exn : Type :=
| KeyError (key : string)
| IndexError (msg : string)
| ValueError (msg : string)
| TypeError (msg : string)
| AttributeError (msg : string)
| AssertionError (msg : string)
| ZeroDivisionError
| OSError (msg : string)
| EMAError (msg : string)
| ModelError (msg : string).

Inductive result (A : Type) : Type :=
| Ok (a : A)
| Raise (e : exn).
Arguments Ok {A} a.
Arguments Raise {A} e.

Definition rbind {A B} (m : result A) (f : A → result B) : result B :=
  match m with
  | Ok a => f a
  | Raise e => Raise e
  end.

Global Instance result_fmap : FMap result :=
  λ A B f m, match m with Ok a => Ok (f a) | Raise e => Raise e end.

Definition result_to_option {A} (m : result A) : option A :=
  match m with
  | Ok a => Some a
  | Raise _ => None
  end.

Notation "'let?' x ':=' c 'in' k" := (rbind c (λ x, k))
  (at level 10, x name, c at level 100, k at level 200).

(** [[f(x) for x in l]] where [f] may raise: stops at the first exception. *)
Fixpoint rmap {A B} (f : A → result B) (l : list A) : result (list B) :=
  match l with
  | [] => Ok []
  | x :: l' => let? y := f x in let? ys := rmap f l' in Ok (y :: ys)
  end.

(** Python's numeric tower for [==]: bool ⊂ int ⊂ float. *)
Definition py_num (v : pyval) : option Q :=
  match v with
  | VFloat q => Some q
  | VInt z => Some (inject_Z z)
  | VBool b => Some (inject_Z (Z.b2z b))
  | VStr _ => None
  end.

Definition py_eqb (a b : pyval) : bool :=
  match py_num a, py_num b with
  | Some x, Some y => Qeq_bool x y
  | None, None =>
      match a, b with
      | VStr s, VStr t => String.eqb s t
      | _, _ => false
      end
  | _, _ => false
  end.

(** [int(x)] on a float truncates toward zero. *)
Definition Qtrunc (q : Q) : Z := Z.quot (Qnum q) (Zpos (Qden q)).


(** The Python primitives the code relies on whose definition is not part of
    the repository. *)
Class PyRuntime : Type := {
  (** [int(s)] for a [str]; [None] when Python raises [ValueError]. *)
  py_int_of_str : string → option Z
}.

Section Python.
Context `{PyRuntime}.

Definition py_int (v : raw) : result Z :=
  match v with
  | RVal (VFloat q) => Ok (Qtrunc q)
  | RVal (VInt z) => Ok z
  | RVal (VBool b) => Ok (Z.b2z b)
  | RVal (VStr s) =>
      match py_int_of_str s with
      | Some z => Ok z
      | None => Raise (ValueError "invalid literal for int()")
      end
  | RCat _ => Raise (TypeError "int() argument must be a string or a number")
  end.

Definition py_bool_of_int (z : Z) : bool := negb (z =? 0)%Z.

End Python.

(** ** Parameters *)

(** Modelled from the spec: [parameters.py] is not part of the sources. The
    four parameter classes of the data model. *)
Inductive ParameterKind : Type :=
| RealParameter
| IntegerParameter
| BooleanParameter
| CategoricalParameter.

Global Instance ParameterKind_eq_dec : EqDecision ParameterKind.
Proof. solve_decision. Defined.

(** The attributes of a parameter that the samplers and the design generator
    read. [resolution = []] stands for Python's [None] / empty list. *)
Record Param : Type := {
  name : string;
  ptype : ParameterKind;
  lower_bound : Q;
  upper_bound : Q;
  resolution : list pyval;
  dist : string;
  params : list Q;
  pff : bool;
  categories : list Category
}.

(** [parameters.py] is not part of the sources; the classes nest as the
    comment in [design_generator] says (a categorical parameter is an integer
    parameter) and as the published package has them: boolean and
    categorical parameters are subclasses of [IntegerParameter]. *)
Definition subclass (k c : ParameterKind) : bool :=
  match k, c with
  | RealParameter, RealParameter => true
  | IntegerParameter, IntegerParameter => true
  | BooleanParameter, BooleanParameter => true
  | BooleanParameter, IntegerParameter => true
  | CategoricalParameter, CategoricalParameter => true
  | CategoricalParameter, IntegerParameter => true
  | _, _ => false
  end.

(** [isinstance(param, c)] *)
Definition isinstance (param : Param) (c : ParameterKind) : bool :=
  subclass (ptype param) c.

(** Modelled from the spec: [value in param.categories] holds when the value
    equals a declared category value. *)
Definition in_categories (value : pyval) (param : Param) : bool :=
  existsb (λ c, py_eqb value (cat_value c)) (categories param).

(** Modelled from the spec: [param.cat_for_index(i)] indexes the ordered
    category list. *)
Definition cat_for_index (param : Param) (index : Z) : result Category :=
  if (index <? 0)%Z then Raise (KeyError "cat_for_index")
  else match categories param !! Z.to_nat index with
       | Some c => Ok c
       | None => Raise (KeyError "cat_for_index")
       end.

(** ** Scenario and Policy objects *)

Inductive design_kind : Type := Scenario | Policy.

(** Modelled from the spec: a [Scenario] / [Policy] is a named mapping from
    parameter name to value. [nd_name = None] is the name the constructor
    derives on its own. *)
Record NamedDict : Type := {
  nd_kind : design_kind;
  nd_name : option string;
  nd_data : gmap string raw
}.

(** The call of [kind] on the keyword arguments of [design_dict]; [kind] is
    [None] until a caller sets it. *)
Definition call_kind (kind : option design_kind) (design_dict : gmap string raw)
  : result NamedDict :=
  match kind with
  | Some k => Ok {| nd_kind := k; nd_name := None; nd_data := design_dict |}
  | None => Raise (TypeError "'NoneType' object is not callable")
  end.

Section DesignGenerator.
Context `{PyRuntime}.

(** [if isinstance(value, Category): value = value.value] *)
Definition unwrap_category (value : raw) : pyval :=
  match value with
  | RCat c => cat_value c
  | RVal v => v
  end.

(** The body of the inner loop of [design_generator]: the value stored for
    [param] given the raw [value]. The [isinstance] tests are tried in the
    order of the source, so the first class that fits decides. *)
Definition coerce (param : Param) (value : raw) : result raw :=
  if isinstance param CategoricalParameter then
    let value := unwrap_category value in
    if negb (in_categories value param)
    then let? index := py_int (RVal value) in
         let? c := cat_for_index param index in
         Ok (RVal (cat_value c))
    else Ok (RVal value)
  else if isinstance param IntegerParameter then
    let? z := py_int value in Ok (RVal (VInt z))
  else if isinstance param BooleanParameter then
    let? z := py_int value in Ok (RVal (VBool (py_bool_of_int z)))
  else Ok value.

(** [for param, value in zip(params, design): ... design_dict[param.name] = value] *)
Fixpoint fill_design_dict (ps : list Param) (design : list raw)
    (design_dict : gmap string raw) : result (gmap string raw) :=
  match ps, design with
  | param :: ps', value :: design' =>
      let? value' := coerce param value in
      fill_design_dict ps' design' (<[name param := value']> design_dict)
  | _, _ => Ok design_dict
  end.

(** The generator, consumed to the end: the list of objects it yields, or the
    exception raised on the way. *)
Definition design_generator (designs : list (list raw)) (ps : list Param)
    (kind : option design_kind) : result (list NamedDict) :=
  rmap (λ design,
          let? design_dict := fill_design_dict ps design ∅ in
          call_kind kind design_dict) designs.

(** The values of an object read back in the order of the parameters: the raw
    design that a [Scenario] or [Policy] stands for. *)
Definition raw_design (ps : list Param) (o : NamedDict) : list raw :=
  omap (λ p, nd_data o !! name p) ps.

End DesignGenerator.

(** ** The world outside the program *)

(** Calls on external collaborators, in the order in which they happen. *)
Inductive event : Type :=
| EvRandom (what : string) (size : nat)
| EvLog (msg : string)
| EvDetermineObjects (attribute : string)
| EvNewCallback (nr_experiments : nat)
| EvNewSequentialEvaluator
| EvRunExperiment (experiment_id : nat)
| EvRunnerCleanup
| EvPoolStart
| EvPoolTerminate
| EvPoolClose
| EvPoolJoin.

(** scipy's distribution families, and a frozen distribution: a family with
    the arguments it was called with. For [scipy_beta] the arguments are
    [alpha; beta; loc; scale]. *)
Inductive scipy_dist : Type :=
| scipy_uniform
| scipy_randint
| scipy_triang
| scipy_beta
| scipy_bernoulli.

Record frozen : Type := { fz_dist : scipy_dist; fz_args : list Q }.

(** numpy's global random generator and scipy's distribution functions. The
    state they read and write is [ext_state]. *)
Class Runtime : Type := {
  runtime_py :: PyRuntime;
  ext_state : Type;
  (** [np.random.shuffle] *)
  np_random_shuffle : list Q → ext_state → list Q * ext_state;
  (** [size] draws from the unit interval, the source of [rvs] of a uniform *)
  np_random_sample : nat → ext_state → list Q * ext_state;
  (** the quantile function of a frozen distribution *)
  scipy_ppf : frozen → Q → pyval;
  (** [frozen.rvs(size)] *)
  scipy_rvs : frozen → nat → ext_state → list pyval * ext_state
}.

Section World.
Context `{Runtime}.

Record world : Type := {
  cwd : string;
  ext : ext_state;
  trace : list event
}.

(** State and exceptions: the world is kept when an exception is raised. *)
Definition M (A : Type) : Type := world → result A * world.

Definition ret {A} (a : A) : M A := λ w, (Ok a, w).

Definition bind {A B} (m : M A) (f : A → M B) : M B :=
  λ w, match m w with
       | (Ok a, w') => f a w'
       | (Raise e, w') => (Raise e, w')
       end.

Definition raise {A} (e : exn) : M A := λ w, (Raise e, w).

Definition lift {A} (r : result A) : M A := λ w, (r, w).

(** The world after some more external calls. *)
Definition add_trace (w : world) (es : list event) : world :=
  {| cwd := cwd w; ext := ext w; trace := trace w ++ es |}.

Definition emit (e : event) : M unit := λ w, (Ok tt, add_trace w [e]).

(** Runs a library call on the external state. *)
Definition on_ext {A} (f : ext_state → A * ext_state) : M A :=
  λ w, let (a, s) := f (ext w) in
       (Ok a, {| cwd := cwd w; ext := s; trace := trace w |}).

End World.

Notation "'let!' x ':=' c 'in' k" := (bind c (λ x, k))
  (at level 10, x name, c at level 100, k at level 200).
Notation "'let!' ' pat ':=' c 'in' k" :=
  (bind c (λ x, match x with pat => k end))
  (at level 10, pat pattern, c at level 100, k at level 200).
Notation "c ';;!' k" := (bind c (λ _, k))
  (at level 100, k at level 200, right associativity).

(** [for x in l: acc = f(acc, x)] *)
Fixpoint foldM `{Runtime} {A B} (f : B → A → M B) (acc : B) (l : list A) : M B :=
  match l with
  | [] => ret acc
  | x :: l' => let! acc' := f acc x in foldM f acc' l'
  end.

(** ** Distributions known to the samplers

    Over rationals; [B64._beta] and [B64._pert] are the same functions over
    binary64 numbers. *)

Definition qdiv (x y : Q) : result Q :=
  if Qeq_bool y 0 then Raise ZeroDivisionError else Ok (x / y)%Q.

Definition Qlt_bool (x y : Q) : bool := negb (Qle_bool y x).

(** [_beta(alpha, beta, low, high)] *)
Definition _beta (alpha beta low high : Q) : result frozen :=
  if negb (Qlt_bool 0 alpha && Qlt_bool 0 beta)
  then Raise (AssertionError "Beta alpha and beta parameters must be greater than zero")
  else if negb (Qlt_bool low high)
  then Raise (AssertionError "Beta low must be less than high")
  else Ok {| fz_dist := scipy_beta;
             fz_args := [alpha; beta; low; (high - low)%Q] |}.

(** [_pert(low, peak, high, gamma)] *)
Definition _pert (low peak high gamma : Q) : result frozen :=
  let a := low in
  let b := peak in
  let c := high in
  if negb (Qle_bool a b && Qle_bool b c)
  then Raise (AssertionError "PERT peak must be greater than low and less than high")
  else if negb (Qle_bool 0 gamma)
  then Raise (AssertionError "PERT g must be non-negative")
  else
    let? mu := qdiv (a + gamma * b + c)%Q (gamma + 2)%Q in
    if Qeq_bool mu b then _beta 3 3 a c
    else
      let? a1 := qdiv ((mu - a) * (2 * b - a - c))%Q ((b - mu) * (c - a))%Q in
      let? a2 := qdiv (a1 * (c - mu))%Q (mu - a)%Q in
      _beta a1 a2 a c.

(** [_pert2(peak, gamma, low, width)] *)
Definition _pert2 (peak gamma low width : Q) : result frozen :=
  _pert low peak (low + width)%Q gamma.

(** [_bernoulli(rate, low=0, high=1)] *)
Definition _bernoulli (rate low high : Q) : result frozen :=
  Ok {| fz_dist := scipy_bernoulli; fz_args := [rate] |}.

(** The values of the [distributions] tables: something callable on the
    parameter tuple. *)
Inductive dist_ctor : Type :=
| stats_uniform
| stats_randint
| stats_triang
| ctor_pert2
| ctor_bernoulli.

(** [dist( *parms)] *)
Definition call_dist (dist : dist_ctor) (parms : list Q) : result frozen :=
  match dist with
  | stats_uniform => Ok {| fz_dist := scipy_uniform; fz_args := parms |}
  | stats_randint => Ok {| fz_dist := scipy_randint; fz_args := parms |}
  | stats_triang => Ok {| fz_dist := scipy_triang; fz_args := parms |}
  | ctor_pert2 =>
      match parms with
      | [peak; gamma; low; width] => _pert2 peak gamma low width
      | _ => Raise (TypeError "_pert2() takes 4 positional arguments")
      end
  | ctor_bernoulli =>
      match parms with
      | [rate] => _bernoulli rate 0 1
      | [rate; low] => _bernoulli rate low 1
      | [rate; low; high] => _bernoulli rate low high
      | _ => Raise (TypeError "_bernoulli() takes from 1 to 3 positional arguments")
      end
  end.

(** [AbstractSampler.distributions] *)
Definition distributions : gmap string dist_ctor :=
  list_to_map [("uniform", stats_uniform);
               ("integer", stats_randint);
               ("triangular", stats_triang);
               ("triangle", stats_triang);
               ("triang", stats_triang);
               ("pert", ctor_pert2);
               ("bernoulli", ctor_bernoulli)].

(** [AbstractSampler.uniform_distributions] *)
Definition uniform_distributions : gmap string dist_ctor :=
  list_to_map [("uniform", stats_uniform);
               ("integer", stats_randint);
               ("triangular", stats_uniform);
               ("triangle", stats_uniform);
               ("triang", stats_uniform);
               ("pert", stats_uniform);
               ("bernoulli", stats_randint)].

(** [d[key]] on a dict *)
Definition getitem {V} (d : gmap string V) (key : string) : result V :=
  match d !! key with
  | Some v => Ok v
  | None => Raise (KeyError key)
  end.

(** ** numpy helpers *)

Definition Qnat (n : nat) : Q := inject_Z (Z.of_nat n).

(** [np.linspace(start, stop, num)], endpoint included, over rationals
    ([B64.linspace] has numpy's rounding) *)
Definition linspace (start stop : Q) (num : nat) : list Q :=
  match num with
  | 0 => []
  | 1 => [start]
  | _ => (λ i, (start + Qnat i * ((stop - start) / Qnat (num - 1)))%Q)
           <$> seq 0 num
  end.

(** [np.round(x, 0)]: to the nearest integer, ties to the even one *)
Definition np_round (q : Q) : Z :=
  let f := Qfloor q in
  let r := (q - inject_Z f)%Q in
  match (r ?= 1 # 2)%Q with
  | Lt => f
  | Gt => (f + 1)%Z
  | Eq => if Z.even f then f else (f + 1)%Z
  end.

(** [sorted(set(l))] on integers *)
Fixpoint insert_uniq (z : Z) (l : list Z) : list Z :=
  match l with
  | [] => [z]
  | y :: l' =>
      if (z <? y)%Z then z :: y :: l'
      else if (z =? y)%Z then y :: l'
      else y :: insert_uniq z l'
  end.

Definition sorted_set (l : list Z) : list Z := foldr insert_uniq [] l.

(** [sorted(parameters, key=operator.attrgetter('name'))]: a stable sort *)
Fixpoint insert_by_name (p : Param) (l : list Param) : list Param :=
  match l with
  | [] => [p]
  | y :: l' =>
      if String.leb (name p) (name y) then p :: y :: l'
      else y :: insert_by_name p l'
  end.

Definition sorted_by_name (l : list Param) : list Param :=
  foldr insert_by_name [] l.

(** What scipy returns: an array of one dimension, or a scalar (a
    [numpy.float64]), which cannot be iterated. *)
Inductive nd (A : Type) : Type :=
| NdArray (values : list A)
| NdScalar (value : A).
Arguments NdArray {A} values.
Arguments NdScalar {A} value.

Global Instance nd_fmap : FMap nd :=
  λ A B f a, match a with
             | NdArray l => NdArray (f <$> l)
             | NdScalar x => NdScalar (f x)
             end.

(** The entries of a numpy value. *)
Definition nd_values {A} (a : nd A) : list A :=
  match a with
  | NdArray l => l
  | NdScalar x => [x]
  end.

(** What scipy's [rvs()] makes of the values it drew when no [size] is given:
    leading dimensions of length one are dropped, so one value comes back as
    a scalar. *)
Definition squeeze {A} (l : list A) : nd A :=
  match l with
  | [x] => NdScalar x
  | _ => NdArray l
  end.

(** [iter(a)], as [zip] calls it on each of its arguments *)
Definition py_iter {A} (a : nd A) : result (list A) :=
  match a with
  | NdArray l => Ok l
  | NdScalar _ => Raise (TypeError "'numpy.float64' object is not iterable")
  end.

(** [zip( *ls)]: the tuples of the i-th entries, as many as the shortest list
    has; no list gives no tuple. *)
Definition zip_star {A} (ls : list (list A)) : list (list A) :=
  match ls with
  | [] => []
  | l :: ls' =>
      let m := foldr Nat.min (length l) (length <$> ls') in
      (λ i, omap (λ l, l !! i) ls) <$> seq 0 m
  end.

(** [itertools.product( *ls)]: the last list varies fastest; no list gives the
    one empty tuple. *)
Definition product_star {A} (ls : list (list A)) : list (list A) :=
  foldr (λ l acc, x ← l; (λ t, x :: t) <$> acc) [[]] ls.

(** ** Design sets *)

(** [DefaultDesigns]: the materialised raw designs, the parameters they are
    aligned to, the constructor to apply, and the reported number of designs. *)
Record DefaultDesigns : Type := {
  designs : list (list raw);
  parameters : list Param;
  dd_params : list string;
  kind : option design_kind;
  n : nat
}.

(** [DefaultDesigns.__init__(designs, parameters, n)] *)
Definition DefaultDesigns_init (designs : list (list raw))
    (parameters : list Param) (n : nat) : DefaultDesigns :=
  {| designs := designs;
     parameters := parameters;
     dd_params := name <$> parameters;
     kind := None;
     n := n |}.

(** [PartialFactorialDesigns]: the two sub-designs are kept apart. *)
Record PartialFactorialDesigns : Type := {
  ff_designs : DefaultDesigns;
  other_designs : DefaultDesigns;
  pf_parameters : list Param;
  pf_params : list string;
  pf_kind : option design_kind;
  pf_n : nat
}.

(** [PartialFactorialDesigns.__init__(ff_designs, other_designs, parameters, n)] *)
Definition PartialFactorialDesigns_init (ff_designs other_designs : DefaultDesigns)
    (parameters : list Param) (n : nat) : PartialFactorialDesigns :=
  {| ff_designs := ff_designs;
     other_designs := other_designs;
     pf_parameters := parameters;
     pf_params := name <$> parameters;
     pf_kind := None;
     pf_n := n |}.

(** What [generate_designs] returns. *)
Inductive design_set : Type :=
| DD (d : DefaultDesigns)
| PFD (d : PartialFactorialDesigns).

(** The attribute [n] of a design set. *)
Definition reported_n (ds : design_set) : nat :=
  match ds with
  | DD d => n d
  | PFD d => pf_n d
  end.

(** The attribute [parameters] of a design set. *)
Definition set_parameters (ds : design_set) : list Param :=
  match ds with
  | DD d => parameters d
  | PFD d => pf_parameters d
  end.

Definition DefaultDesigns_set_kind (d : DefaultDesigns) (value : design_kind)
  : DefaultDesigns :=
  {| designs := designs d;
     parameters := parameters d;
     dd_params := dd_params d;
     kind := Some value;
     n := n d |}.

(** The [kind] setter: on a partial factorial design set it also sets the
    constructor of both sub-designs. *)
Definition set_kind (ds : design_set) (value : design_kind) : design_set :=
  match ds with
  | DD d => DD (DefaultDesigns_set_kind d value)
  | PFD d =>
      PFD {| ff_designs := DefaultDesigns_set_kind (ff_designs d) value;
             other_designs := DefaultDesigns_set_kind (other_designs d) value;
             pf_parameters := pf_parameters d;
             pf_params := pf_params d;
             pf_kind := Some value;
             pf_n := pf_n d |}
  end.

Section Iteration.
Context `{PyRuntime}.

(** [DefaultDesigns.__iter__], consumed to the end *)
Definition DefaultDesigns_iter (d : DefaultDesigns) : result (list NamedDict) :=
  design_generator (designs d) (parameters d) (kind d).

(** [design = ff_part.copy(); design.update(other_part)] *)
Definition combine_parts (ff_part other_part : NamedDict) : NamedDict :=
  {| nd_kind := nd_kind ff_part;
     nd_name := nd_name ff_part;
     nd_data := nd_data other_part ∪ nd_data ff_part |}.

(** [partial_designs_generator], consumed to the end *)
Definition partial_designs_generator (pairs : list (NamedDict * NamedDict))
  : list NamedDict :=
  (λ design, combine_parts design.1 design.2) <$> pairs.

(** [PartialFactorialDesigns.__iter__]: the Cartesian product of the two
    sub-designs is taken here, when the set is iterated. *)
Definition PartialFactorialDesigns_iter (d : PartialFactorialDesigns)
  : result (list NamedDict) :=
  let? ff := DefaultDesigns_iter (ff_designs d) in
  let? other := DefaultDesigns_iter (other_designs d) in
  Ok (partial_designs_generator (a ← ff; (λ b, (a, b)) <$> other)).

(** [list(iter(ds))] *)
Definition iter_designs (ds : design_set) : result (list NamedDict) :=
  match ds with
  | DD d => DefaultDesigns_iter d
  | PFD d => PartialFactorialDesigns_iter d
  end.

End Iteration.

(** The value stored under [key] in the [i]-th object of a generator's output. *)
Definition stored (r : result (list NamedDict)) (i : nat) (key : string)
  : option raw :=
  match r with
  | Ok objs => o ← objs !! i; nd_data o !! key
  | Raise _ => None
  end.

(** ** Samplers *)

(** The samplers that only override [sample]. *)
Inductive base_sampler : Type :=
| LHSSampler
| UniformLHSSampler
| MonteCarloSampler.

Inductive sampler : Type :=
| Base (s : base_sampler)
| FullFactorialSampler
| PartialFactorialSampler (sub : base_sampler).

(** [PartialFactorialSampler.__init__(sampling)] *)
Definition PartialFactorialSampler_init (sampling : string) : result sampler :=
  if String.eqb sampling "LHS" then Ok (PartialFactorialSampler LHSSampler)
  else if String.eqb sampling "MC" then Ok (PartialFactorialSampler MonteCarloSampler)
  else Raise (ValueError "invalid value for sampling type, should be LHS or MC").

Section Samplers.
Context `{Runtime}.

(** The quantile function of a frozen distribution. For the uniform family
    on a proper interval it is scipy's documented [loc + scale * q]; every
    other case is left to the library. *)
Definition frozen_ppf (f : frozen) (q : Q) : pyval :=
  match fz_dist f, fz_args f with
  | scipy_uniform, [loc; scale] =>
      if Qle_bool 0 q && Qle_bool q 1 && Qlt_bool 0 scale
      then VFloat (loc + scale * q)%Q
      else scipy_ppf f q
  | _, _ => scipy_ppf f q
  end.

(** [stats.uniform(perc, scale).rvs()]: one draw per entry of [perc]. With
    no [size] given, scipy drops the dimension of a [perc] of one entry and
    returns a scalar. The numbers are rationals here; [B64.uniform_rvs] has
    the rounding. *)
Definition uniform_rvs (perc : list Q) (scale : Q) : M (nd Q) :=
  let! us := on_ext (np_random_sample (length perc)) in
  emit (EvRandom "rvs" (length perc)) ;;!
  ret (squeeze (zip_with (λ loc u, (loc + scale * u)%Q) perc us)).

(** [LHSSampler._lhs] and [UniformLHSSampler._lhs] *)
Definition _lhs (dist : dist_ctor) (parms : list Q) (siz : nat) : M (nd pyval) :=
  let! stop := lift (qdiv (inject_Z (Z.of_nat siz - 1)) (Qnat siz)) in
  let perc := linspace 0 stop siz in
  let! perc := on_ext (np_random_shuffle perc) in
  emit (EvRandom "shuffle" siz) ;;!
  let! scale := lift (qdiv 1 (Qnat siz)) in
  let! smp := uniform_rvs perc scale in
  let! v := lift (call_dist dist parms) in
  ret (frozen_ppf v <$> smp).

(** [params[-2:]] *)
Definition last_two {A} (l : list A) : list A := drop (length l - 2) l.

(** The [sample] method of each sampler. *)
Definition sample (s : base_sampler) (distribution : string) (parms : list Q)
    (size : nat) : M (nd pyval) :=
  match s with
  | LHSSampler =>
      let! dist := lift (getitem distributions distribution) in
      _lhs dist parms size
  | UniformLHSSampler =>
      let! dist := lift (getitem uniform_distributions distribution) in
      _lhs dist (last_two parms) size
  | MonteCarloSampler =>
      let! dist := lift (getitem distributions distribution) in
      let! v := lift (call_dist dist parms) in
      let! r := on_ext (scipy_rvs v size) in
      emit (EvRandom "rvs" size) ;;!
      ret (NdArray r)
  end.

(** [AbstractSampler.generate_samples]: the dict comprehension, evaluated in
    the order of [parameters]. *)
Definition generate_samples (s : base_sampler) (parameters : list Param)
    (size : nat) : M (gmap string (nd pyval)) :=
  foldM (λ samples param,
           let! v := sample s (dist param) (params param) size in
           ret (<[name param := v]> samples))
        ∅ parameters.

(** [AbstractSampler.generate_designs]: [zip] takes an iterator of each
    column as soon as it is called. *)
Definition generate_designs_base (s : base_sampler) (parameters : list Param)
    (nr_samples : nat) : M DefaultDesigns :=
  let parameters := sorted_by_name parameters in
  let! sampled_parameters := generate_samples s parameters nr_samples in
  let! columns := lift (rmap (λ u, getitem sampled_parameters (name u)) parameters) in
  let! columns := lift (rmap py_iter columns) in
  let designs := zip_star columns in
  ret (DefaultDesigns_init (fmap (M:=list) RVal <$> designs) parameters nr_samples).

(** The levels [FullFactorialSampler.generate_samples] computes for one
    parameter; the grid points are rationals, without numpy's rounding. *)
Definition ff_cats (param : Param) (size : nat) : list pyval :=
  match resolution param with
  | [] =>
      let cats := linspace (lower_bound param) (upper_bound param) size in
      if isinstance param IntegerParameter
      then VInt <$> sorted_set (np_round <$> cats)
      else VFloat <$> cats
  | cats => cats
  end.

(** [FullFactorialSampler.generate_samples] *)
Definition ff_generate_samples (parameters : list Param) (size : nat)
  : gmap string (list pyval) :=
  foldl (λ samples param, <[name param := ff_cats param size]> samples)
        ∅ parameters.

(** [FullFactorialSampler.determine_nr_of_designs] *)
Definition determine_nr_of_designs (sampled_parameters : gmap string (list pyval))
  : nat :=
  map_fold (λ _ value nr_designs, nr_designs * length value) 1 sampled_parameters.

(** [FullFactorialSampler.generate_designs] *)
Definition generate_designs_ff (parameters : list Param) (nr_samples : nat)
  : result DefaultDesigns :=
  let parameters := sorted_by_name parameters in
  let samples := ff_generate_samples parameters nr_samples in
  let? columns := rmap (λ u, getitem samples (name u)) parameters in
  let zipped_samples := product_star columns in
  let n_designs := determine_nr_of_designs samples in
  Ok (DefaultDesigns_init (fmap (M:=list) RVal <$> zipped_samples) parameters n_designs).

(** [PartialFactorialSampler._sort_parameters] *)
Definition _sort_parameters (parameters : list Param) : list Param * list Param :=
  (filter (λ p, pff p = true) parameters,
   filter (λ p, pff p ≠ true) parameters).

(** [PartialFactorialSampler.generate_designs] *)
Definition generate_designs_pff (sub : base_sampler) (parameters : list Param)
    (nr_samples : nat) : M PartialFactorialDesigns :=
  let (ff_params, other_params) := _sort_parameters parameters in
  let! ff_designs := lift (generate_designs_ff ff_params nr_samples) in
  let! other_designs := generate_designs_base sub other_params nr_samples in
  let nr_designs := n other_designs * n ff_designs in
  ret (PartialFactorialDesigns_init ff_designs other_designs parameters nr_designs).

(** [sampler.generate_designs(parameters, nr_samples)] *)
Definition generate_designs (s : sampler) (parameters : list Param)
    (nr_samples : nat) : M design_set :=
  match s with
  | Base b =>
      let! d := generate_designs_base b parameters nr_samples in ret (DD d)
  | FullFactorialSampler =>
      let! d := lift (generate_designs_ff parameters nr_samples) in ret (DD d)
  | PartialFactorialSampler sub =>
      let! d := generate_designs_pff sub parameters nr_samples in ret (PFD d)
  end.

End Samplers.

(** What the samplers assume of the random generator: a shuffle permutes,
    the draws are as many as asked for and lie in the unit interval. *)
Class RandomLaws `{Runtime} : Prop := {
  shuffle_permutation : ∀ l s, (np_random_shuffle l s).1 ≡ₚ l;
  sample_length : ∀ size s, length (np_random_sample size s).1 = size;
  sample_unit_interval :
    ∀ size s, Forall (λ u, (0 <= u)%Q ∧ (u < 1)%Q) (np_random_sample size s).1;
  rvs_length : ∀ f size s, length (scipy_rvs f size s).1 = size
}.

(** The table of distributions a sampler looks names up in. *)
Definition table_of (s : base_sampler) : gmap string dist_ctor :=
  match s with
  | UniformLHSSampler => uniform_distributions
  | _ => distributions
  end.

(** A computation that raises with the world as it found it: nothing was
    drawn from the generator and no collaborator was called. *)
Definition raises_untouched `{Runtime} {A} (m : M A) (w : world) : Prop :=
  ∃ e, m w = (Raise e, w).

(** The number of full factorial designs over [ps]: the product of the
    numbers of levels of the parameters. *)
Definition nr_of_levels (ps : list Param) (size : nat) : nat :=
  foldr Nat.mul 1%nat ((λ p, length (ff_cats p size)) <$> ps).

(** ** Experiments and the result callback *)

(** An [AbstractModel] instance, as far as the evaluators look at it. *)
Record Model : Type := { model_name : string }.

(** The [models] argument: one model or a collection of models. *)
Inductive models_arg : Type :=
| OneModel (m : Model)
| ManyModels (l : list Model).

(** [BaseEvaluator.__init__]: a single model is wrapped in a list. *)
Definition msis_of (models : models_arg) : list Model :=
  match models with
  | OneModel m => [m]
  | ManyModels l => l
  end.

(** Modelled from the spec: [parameters.Experiment], one model invocation
    with its integer id. *)
Record Experiment : Type := {
  experiment_id : nat;
  exp_model : Model;
  exp_policy : NamedDict;
  exp_scenario : NamedDict
}.

(** What [experiment_generator] iterates over: a collection of objects, or a
    design set that builds them on iteration. *)
Inductive iterable : Type :=
| IList (l : list NamedDict)
| IDesigns (ds : design_set).

Section Experiments.
Context `{PyRuntime}.

Definition iterate (it : iterable) : result (list NamedDict) :=
  match it with
  | IList l => Ok l
  | IDesigns ds => iter_designs ds
  end.

(** Modelled from the spec: [parameters.experiment_generator] crosses models,
    policies and scenarios in that nesting order and numbers the experiments
    from 0. *)
Definition experiment_generator (scenarios : iterable) (model_structures : list Model)
    (policies : iterable) : result (list Experiment) :=
  let? pols := iterate policies in
  let? scens := iterate scenarios in
  let jobs := msi ← model_structures; policy ← pols;
              (λ scenario, (msi, policy, scenario)) <$> scens in
  Ok (imap (λ i job,
              {| experiment_id := i;
                 exp_model := job.1.1;
                 exp_policy := job.1.2;
                 exp_scenario := job.2 |}) jobs).

End Experiments.

(** Modelled from the spec: [callbacks.DefaultCallback], the result
    aggregator. The tables are preallocated with one empty row per expected
    experiment; [cb_i] is the attribute [i], the number of completed calls. *)
Record DefaultCallback : Type := {
  cb_uncertainties : list Param;
  cb_levers : list Param;
  cb_outcomes : list string;
  nr_experiments : nat;
  cb_i : nat;
  cases : list (option Experiment);
  cb_results : list (option (gmap string pyval))
}.

(** Modelled from the spec: [DefaultCallback(uncertainties, levers, outcomes,
    nr_experiments)] preallocates the tables. *)
Definition DefaultCallback_init (uncertainties levers : list Param)
    (outcomes : list string) (nr_experiments : nat) : DefaultCallback :=
  {| cb_uncertainties := uncertainties;
     cb_levers := levers;
     cb_outcomes := outcomes;
     nr_experiments := nr_experiments;
     cb_i := 0;
     cases := replicate nr_experiments None;
     cb_results := replicate nr_experiments None |}.

(** Modelled from the spec: [callback(experiment, outcomes)] checks the
    outcome names, writes the row of the experiment once, counts the call. *)
Definition DefaultCallback_call (cb : DefaultCallback) (experiment : Experiment)
    (outcomes : gmap string pyval) : result DefaultCallback :=
  if negb (forallb (λ o, bool_decide (is_Some (outcomes !! o))) (cb_outcomes cb))
  then Raise (EMAError "outcome missing from the model output")
  else
    match cases cb !! experiment_id experiment with
    | None => Raise (IndexError "experiment id out of bounds")
    | Some (Some _) => Raise (EMAError "experiment id written twice")
    | Some None =>
        Ok {| cb_uncertainties := cb_uncertainties cb;
              cb_levers := cb_levers cb;
              cb_outcomes := cb_outcomes cb;
              nr_experiments := nr_experiments cb;
              cb_i := cb_i cb + 1;
              cases := <[experiment_id experiment := Some experiment]> (cases cb);
              cb_results :=
                <[experiment_id experiment := Some outcomes]> (cb_results cb) |}
    end.

(** Modelled from the spec: [callback.get_results()] returns the two
    row-aligned tables. *)
Definition get_results (cb : DefaultCallback)
  : list (option Experiment) * list (option (gmap string pyval)) :=
  (cases cb, cb_results cb).

(** ** Collaborators of the evaluators *)

Class Collaborators `{Runtime} : Type := {
  (** [util.determine_objects] on the uncertainties or the levers *)
  determine_objects : models_arg → string → bool → list Param;
  (** [util.determine_objects] on the outcomes: their names *)
  determine_outcomes : models_arg → bool → list string;
  (** [ExperimentRunner.run_experiment]: runs a model; it may fail, and it
      may change the working directory *)
  run_experiment :
    list Model → Experiment → string * ext_state →
    result (gmap string pyval) * (string * ext_state);
  (** [ExperimentRunner.cleanup]: calls the clean-up of every model; it may
      fail too *)
  runner_cleanup : string * ext_state → result unit * (string * ext_state);
  (** whether [os.chdir] to a path can succeed *)
  dir_exists : string → ext_state → bool;
  (** [ema_multiprocessing.add_tasks] *)
  add_tasks : list Experiment → DefaultCallback → M DefaultCallback;
  (** [lb_view.map(_run_experiment, ex_gen, ordered=False, block=False)] *)
  ipyparallel_map : list Experiment → M (list (Experiment * gmap string pyval));
  (** [generate_designs] of the samplers of [salib_samplers] *)
  salib_generate_designs : string → list Param → nat → M design_set
}.

(** ** Evaluators *)

(** The state of a [multiprocessing.Pool]. *)
Inductive pool_state : Type := RUN | CLOSE | TERMINATE.

Record MultiprocessingPoolEvaluator : Type := {
  mp_msis : list Model;
  _pool : option pool_state;
  n_processes : option nat
}.

(** The value a Python method returns where only its truth matters. *)
Inductive py_return : Type := ReturnNone | ReturnFalse | ReturnTrue.

Definition truthy (r : py_return) : bool :=
  match r with
  | ReturnTrue => true
  | _ => false
  end.

Section Evaluators.
Context `{Collaborators}.

Definition getcwd : M string := λ w, (Ok (cwd w), w).

(** [os.chdir(path)] *)
Definition chdir (path : string) : M unit :=
  λ w, if dir_exists path (ext w)
       then (Ok tt, {| cwd := path; ext := ext w; trace := trace w |})
       else (Raise (OSError "No such file or directory"), w).

(** [runner.run_experiment(experiment)] *)
Definition runner_run_experiment (models : list Model) (experiment : Experiment)
  : M (gmap string pyval) :=
  emit (EvRunExperiment (experiment_id experiment)) ;;!
  λ w, let '(r, (d, s)) := run_experiment models experiment (cwd w, ext w) in
       (r, {| cwd := d; ext := s; trace := trace w |}).

(** [runner.cleanup()] *)
Definition runner_cleanup_call : M unit :=
  emit EvRunnerCleanup ;;!
  λ w, let '(r, (d, s)) := runner_cleanup (cwd w, ext w) in
       (r, {| cwd := d; ext := s; trace := trace w |}).

(** [SequentialEvaluator.evaluate_experiments] *)
Definition SequentialEvaluator_evaluate_experiments (_msis : list Model)
    (scenarios policies : iterable) (callback : DefaultCallback)
  : M DefaultCallback :=
  emit (EvLog "performing experiments sequentially") ;;!
  let! cwd := getcwd in
  let! ex_gen := lift (experiment_generator scenarios _msis policies) in
  let! callback :=
    foldM (λ callback experiment,
             let! result := runner_run_experiment _msis experiment in
             lift (DefaultCallback_call callback experiment result))
          callback ex_gen in
  runner_cleanup_call ;;!
  chdir cwd ;;!
  ret callback.

(** [multiprocessing.Pool.terminate], [close] and [join] *)
Definition pool_terminate (p : pool_state) : M pool_state :=
  emit EvPoolTerminate ;;! ret TERMINATE.

Definition pool_close (p : pool_state) : M pool_state :=
  emit EvPoolClose ;;!
  ret (match p with RUN => CLOSE | _ => p end).

Definition pool_join (p : pool_state) : M unit :=
  match p with
  | RUN => raise (ValueError "Pool is still running")
  | _ => emit EvPoolJoin
  end.

Definition set_pool (ev : MultiprocessingPoolEvaluator) (p : pool_state)
  : MultiprocessingPoolEvaluator :=
  {| mp_msis := mp_msis ev; _pool := Some p; n_processes := n_processes ev |}.

(** [self._pool.<attribute>]: an [AttributeError] when no pool was started *)
Definition the_pool (ev : MultiprocessingPoolEvaluator) (attribute : string)
  : M pool_state :=
  match _pool ev with
  | Some p => ret p
  | None =>
      raise (AttributeError
               ("'NoneType' object has no attribute '" ++ attribute ++ "'"))
  end.

(** [MultiprocessingPoolEvaluator.__enter__] *)
Definition MultiprocessingPoolEvaluator_enter (ev : MultiprocessingPoolEvaluator)
  : M MultiprocessingPoolEvaluator :=
  emit EvPoolStart ;;!
  emit (EvLog "pool started") ;;!
  ret (set_pool ev RUN).

(** [MultiprocessingPoolEvaluator.__exit__(exc_type, exc_value, traceback)]:
    the returned value and the evaluator afterwards. *)
Definition MultiprocessingPoolEvaluator_exit (ev : MultiprocessingPoolEvaluator)
    (exc : option exn) : M (py_return * MultiprocessingPoolEvaluator) :=
  emit (EvLog "terminating pool") ;;!
  match exc with
  | Some _ =>
      let! p := the_pool ev "terminate" in
      let! p := pool_terminate p in
      ret (ReturnFalse, set_pool ev p)
  | None =>
      let! p := the_pool ev "close" in
      let! p := pool_close p in
      pool_join p ;;!
      ret (ReturnNone, set_pool ev p)
  end.

(** [MultiprocessingPoolEvaluator.evaluate_experiments] *)
Definition MultiprocessingPoolEvaluator_evaluate_experiments
    (ev : MultiprocessingPoolEvaluator) (scenarios policies : iterable)
    (callback : DefaultCallback) : M DefaultCallback :=
  let! ex_gen := lift (experiment_generator scenarios (mp_msis ev) policies) in
  add_tasks ex_gen callback.

(** [IpyparallelEvaluator.evaluate_experiments] *)
Definition IpyparallelEvaluator_evaluate_experiments (_msis : list Model)
    (scenarios policies : iterable) (callback : DefaultCallback)
  : M DefaultCallback :=
  let! ex_gen := lift (experiment_generator scenarios _msis policies) in
  let! results := ipyparallel_map ex_gen in
  foldM (λ callback entry,
           lift (DefaultCallback_call callback entry.1 entry.2))
        callback results.

(** The statement [with evaluator: body] for the pool evaluator: the body's
    exception is raised again unless [__exit__] returns a true value. *)
Definition with_pool {A} (ev : MultiprocessingPoolEvaluator)
    (body : MultiprocessingPoolEvaluator → M A) : M (option A) :=
  let! ev := MultiprocessingPoolEvaluator_enter ev in
  λ w, match body ev w with
       | (Ok a, w') =>
           (MultiprocessingPoolEvaluator_exit ev None ;;! ret (Some a)) w'
       | (Raise e, w') =>
           (let! r := MultiprocessingPoolEvaluator_exit ev (Some e) in
            if truthy r.1 then ret None else raise e) w'
       end.

(** An evaluator, as [perform_experiments] uses it: its bound method
    [evaluate_experiments]. *)
Definition evaluator : Type :=
  iterable → iterable → DefaultCallback → M DefaultCallback.

(** ** perform_experiments *)

(** A [scenarios] / [policies] argument: a count or a collection. *)
Inductive spec_arg : Type :=
| SpecInt (count : nat)
| SpecList (l : list NamedDict).

(** [not x] on such an argument *)
Definition py_not (x : spec_arg) : bool :=
  match x with
  | SpecInt 0 => true
  | SpecList [] => true
  | _ => false
  end.

(** The classes in the [SAMPLERS] table. *)
Inductive sampler_class : Type :=
| cls_own (s : sampler)
| cls_salib (which : string).

(** [SAMPLERS] *)
Definition SAMPLERS : gmap string (result sampler_class) :=
  list_to_map
    [("lhs", Ok (cls_own (Base LHSSampler)));
     ("mc", Ok (cls_own (Base MonteCarloSampler)));
     ("ff", Ok (cls_own FullFactorialSampler));
     ("pff", (let? s := PartialFactorialSampler_init "LHS" in Ok (cls_own s)));
     ("sobol", Ok (cls_salib "sobol"));
     ("morris", Ok (cls_salib "morris"));
     ("fast", Ok (cls_salib "fast"))].

(** [SAMPLERS[key]()] : looks the class up and instantiates it *)
Definition new_sampler (key : string) : result sampler_class :=
  let? c := getitem SAMPLERS key in c.

Definition sampler_generate_designs (s : sampler_class) (parameters : list Param)
    (nr_samples : nat) : M design_set :=
  match s with
  | cls_own s => generate_designs s parameters nr_samples
  | cls_salib which => salib_generate_designs which parameters nr_samples
  end.

(** [determine_parameters(models, attribute, union)] *)
Definition determine_parameters (models : models_arg) (attribute : string)
    (union : bool) : M (list Param) :=
  emit (EvDetermineObjects attribute) ;;!
  ret (determine_objects models attribute union).

(** [sample_uncertainties(models, n_samples, union, sampler)] *)
Definition sample_uncertainties (models : models_arg) (n_samples : nat)
    (union : bool) (s : sampler_class) : M design_set :=
  let! uncertainties := determine_parameters models "uncertainties" union in
  let! samples := sampler_generate_designs s uncertainties n_samples in
  ret (set_kind samples Scenario).

(** [sample_levers(models, n_samples, union, sampler)] *)
Definition sample_levers (models : models_arg) (n_samples : nat)
    (union : bool) (s : sampler_class) : M design_set :=
  let! levers := determine_parameters models "levers" union in
  let! samples := sampler_generate_designs s levers n_samples in
  ret (set_kind samples Policy).

(** [scenarios[0]] and the test [u.name in scenarios[0]] *)
Definition first_keys (l : list NamedDict) : result (gmap string raw) :=
  match l with
  | x :: _ => Ok (nd_data x)
  | [] => Raise (IndexError "list index out of range")
  end.

(** The scenario named None with no values, which stands for no scenario at
    all, and the same for policies. *)
Definition implicit_scenario : NamedDict :=
  {| nd_kind := Scenario; nd_name := Some "None"; nd_data := ∅ |}.

Definition implicit_policy : NamedDict :=
  {| nd_kind := Policy; nd_name := Some "None"; nd_data := ∅ |}.

(** The first block of [perform_experiments]: the scenarios to run, the
    uncertainties they range over, and their number. *)
Definition resolve_scenarios (models : models_arg) (scenarios : spec_arg)
    (uncertainty_union : bool) (uncertainty_sampling : string)
  : M (iterable * list Param * nat) :=
  if py_not scenarios then
    ret (IList [implicit_scenario], [], 1)
  else
    match scenarios with
    | SpecInt count =>
        let! s := lift (new_sampler uncertainty_sampling) in
        let! scenarios := sample_uncertainties models count uncertainty_union s in
        ret (IDesigns scenarios, set_parameters scenarios, reported_n scenarios)
    | SpecList l =>
        let! uncertainties := determine_parameters models "uncertainties" true in
        let! first := lift (first_keys l) in
        let uncertainties :=
          filter (λ u, is_Some (first !! name u)) uncertainties in
        ret (IList l, uncertainties, length l)
    end.

(** The second block: the same for the policies and the levers. *)
Definition resolve_policies (models : models_arg) (policies : spec_arg)
    (lever_union : bool) (levers_sampling : string)
  : M (iterable * list Param * nat) :=
  if py_not policies then
    ret (IList [implicit_policy], [], 1)
  else
    match policies with
    | SpecInt count =>
        let! s := lift (new_sampler levers_sampling) in
        let! policies := sample_levers models count lever_union s in
        ret (IDesigns policies, set_parameters policies, reported_n policies)
    | SpecList l =>
        let! levers := determine_parameters models "levers" true in
        let! first := lift (first_keys l) in
        let levers := filter (λ l, is_Some (first !! name l)) levers in
        ret (IList l, levers, length l)
    end.

(** [len(models)], 1 when [models] is a single model *)
Definition n_models_of (models : models_arg) : nat :=
  match models with
  | OneModel _ => 1
  | ManyModels l => length l
  end.

(** [perform_experiments] *)
Definition perform_experiments (models : models_arg) (scenarios policies : spec_arg)
    (ev : option evaluator)
    (uncertainty_union lever_union outcome_union : bool)
    (uncertainty_sampling levers_sampling : string)
  : M (list (option Experiment) * list (option (gmap string pyval))) :=
  if py_not scenarios && py_not policies then
    raise (EMAError "no experiments possible since both scenarios and policies are 0")
  else
    let! '(scenarios, uncertainties, n_scenarios) :=
      resolve_scenarios models scenarios uncertainty_union uncertainty_sampling in
    let! '(policies, levers, n_policies) :=
      resolve_policies models policies lever_union levers_sampling in
    let n_models := n_models_of models in
    emit (EvDetermineObjects "outcomes") ;;!
    let outcomes := determine_outcomes models outcome_union in
    let nr_of_exp := n_models * n_scenarios * n_policies in
    emit (EvNewCallback nr_of_exp) ;;!
    let callback := DefaultCallback_init uncertainties levers outcomes nr_of_exp in
    let! ev :=
      match ev with
      | Some ev => ret ev
      | None =>
          emit EvNewSequentialEvaluator ;;!
          ret (SequentialEvaluator_evaluate_experiments (msis_of models))
      end in
    let! callback := ev scenarios policies callback in
    if negb (cb_i callback =? nr_of_exp)%nat
    then raise (EMAError "some fatal error has occurred while running the experiments, not all runs have completed")
    else
      let results := get_results callback in
      emit (EvLog "experiments finished") ;;!
      ret results.

End Evaluators.

(** ** A concrete runtime, to run the definitions on examples *)

Module Demo.

(** [int(s)] always fails. *)
Definition py : PyRuntime := {| py_int_of_str := λ _, None |}.

(** A deterministic generator: shuffling reverses, every draw is one half,
    every quantile is the probability itself. The state counts the calls. *)
Definition runtime : Runtime :=
  {| runtime_py := py;
     ext_state := nat;
     np_random_shuffle := λ l s, (rev l, S s);
     np_random_sample := λ size s, (replicate size (1 # 2)%Q, S s);
     scipy_ppf := λ _ q, VFloat q;
     scipy_rvs := λ _ size s, (replicate size (VFloat (1 # 2)), S s) |}.

Definition real_param (nm : string) (factorial : bool) : Param :=
  {| name := nm; ptype := RealParameter; lower_bound := 0; upper_bound := 1;
     resolution := []; dist := "uniform"; params := [0; 1]%Q; pff := factorial;
     categories := [] |}.

Definition grid_param (nm : string) : Param :=
  {| name := nm; ptype := RealParameter; lower_bound := 0; upper_bound := 1;
     resolution := [VFloat 0; VFloat (1 # 2); VFloat 1]; dist := "uniform";
     params := [0; 1]%Q; pff := true; categories := [] |}.

Definition int_param (nm : string) : Param :=
  {| name := nm; ptype := IntegerParameter; lower_bound := 0; upper_bound := 9;
     resolution := []; dist := "integer"; params := [0; 10]%Q; pff := false;
     categories := [] |}.

Definition bool_param (nm : string) : Param :=
  {| name := nm; ptype := BooleanParameter; lower_bound := 0; upper_bound := 1;
     resolution := [VInt 0; VInt 1]; dist := "integer"; params := [0; 2]%Q;
     pff := false; categories := [] |}.

Definition cat_param (nm : string) : Param :=
  {| name := nm; ptype := CategoricalParameter; lower_bound := 0; upper_bound := 2;
     resolution := [VInt 0; VInt 1; VInt 2]; dist := "integer";
     params := [0; 3]%Q; pff := false;
     categories := [ {| cat_name := "red"; cat_value := VStr "red" |};
                     {| cat_name := "green"; cat_value := VStr "green" |};
                     {| cat_name := "blue"; cat_value := VStr "blue" |} ] |}.

Definition bad_param (nm : string) : Param :=
  {| name := nm; ptype := RealParameter; lower_bound := 0; upper_bound := 1;
     resolution := []; dist := "lognormal"; params := [0; 1]%Q; pff := false;
     categories := [] |}.

(** One model with one uncertainty and one lever; a run returns its outcome
    and leaves the process in the model's directory. *)
Definition collaborators : @Collaborators runtime :=
  {| determine_objects := λ _ attribute _,
       if String.eqb attribute "uncertainties" then [real_param "u" false]
       else [real_param "l" false];
     determine_outcomes := λ _ _, ["y"];
     run_experiment := λ _ _ st, (Ok {["y" := VInt 1]}, ("/tmp/model", st.2));
     runner_cleanup := λ st, (Ok tt, st);
     dir_exists := λ _ _, true;
     add_tasks := λ _ callback, ret callback;
     ipyparallel_map := λ _, ret [];
     salib_generate_designs := λ _ _ _, raise (ValueError "not available") |}.

(** The same, with a model that fails after it has changed directory, and
    one whose clean-up fails. *)
Definition failing_model : @Collaborators runtime :=
  {| determine_objects := @determine_objects _ collaborators;
     determine_outcomes := @determine_outcomes _ collaborators;
     run_experiment := λ _ _ st,
       (Raise (ModelError "the model failed"), ("/tmp/model", st.2));
     runner_cleanup := @runner_cleanup _ collaborators;
     dir_exists := @dir_exists _ collaborators;
     add_tasks := @add_tasks _ collaborators;
     ipyparallel_map := @ipyparallel_map _ collaborators;
     salib_generate_designs := @salib_generate_designs _ collaborators |}.

Definition failing_cleanup : @Collaborators runtime :=
  {| determine_objects := @determine_objects _ collaborators;
     determine_outcomes := @determine_outcomes _ collaborators;
     run_experiment := @run_experiment _ collaborators;
     runner_cleanup := λ st, (Raise (ModelError "the clean-up failed"), st);
     dir_exists := @dir_exists _ collaborators;
     add_tasks := @add_tasks _ collaborators;
     ipyparallel_map := @ipyparallel_map _ collaborators;
     salib_generate_designs := @salib_generate_designs _ collaborators |}.

Definition w0 : @world runtime :=
  {| cwd := "/home/user"; ext := (O : @ext_state runtime); trace := [] |}.

Definition the_model : Model := {| model_name := "m" |}.

(** A pool evaluator inside its [with] block. *)
Definition pool : MultiprocessingPoolEvaluator :=
  {| mp_msis := [the_model]; _pool := Some RUN; n_processes := None |}.

End Demo.

(** ** Further definitions *)

(** The order in which [sorted] puts two parameters: by name. *)
Definition name_le (p q : Param) : Prop := String.leb (name p) (name q) = true.

(** ** The decision rules of a fitted tree ([analysis/cart.py]) *)

Module Cart.

(** scikit-learn's [tree_], as far as [CART.boxes] reads it: one entry per
    node in each array. A leaf has [-1] for both children and [-2] for its
    feature. *)
Record Tree : Type := {
  children_left : list Z;
  children_right : list Z;
  threshold : list Q;
  feature : list Z
}.

(** An entry of a lineage:
    [(parent, split, threshold[parent], features[parent])] *)
Definition step : Type := nat * string * Q * string.

(** [np.where(a == v)[0]]: the positions of [v], in increasing order *)
Fixpoint where_eq_from (i : nat) (a : list Z) (v : Z) : list nat :=
  match a with
  | [] => []
  | x :: a' =>
      if (x =? v)%Z then i :: where_eq_from (S i) a' v
      else where_eq_from (S i) a' v
  end.

Definition np_where_eq (a : list Z) (v : Z) : list nat := where_eq_from 0 a v.

(** [a.item()]: the element of an array of size one *)
Definition item (a : list nat) : result nat :=
  match a with
  | [x] => Ok x
  | _ => Raise (ValueError "can only convert an array of size 1 to a Python scalar")
  end.

(** [v in a] on an array *)
Definition np_contains (a : list Z) (v : Z) : bool := existsb (Z.eqb v) a.

(** [a[i]] for an index that is not negative *)
Definition index {A} (a : list A) (i : nat) : result A :=
  match a !! i with
  | Some x => Ok x
  | None => Raise (IndexError "index out of range")
  end.

(** [l[i]] on a list: a negative index counts from the end *)
Definition list_getitem {A} (l : list A) (i : Z) : result A :=
  let j := if (i <? 0)%Z then (i + Z.of_nat (length l))%Z else i in
  if (j <? 0)%Z then Raise (IndexError "list index out of range")
  else index l (Z.to_nat j).

(** [features = [self.feature_names[i] for i in self.clf.tree_.feature]] *)
Definition features (feature_names : list string) (t : Tree)
  : result (list string) :=
  rmap (list_getitem feature_names) (feature t).

(** [leafs = np.argwhere(left == -1)[:, 0]] *)
Definition leafs (t : Tree) : list nat := np_where_eq (children_left t) (-1).

(** [recurse(left, right, child, lineage)], the function nested in
    [CART.boxes], with the [threshold] and [features] it closes over. [fuel]
    bounds the depth of the recursion: [None] when it runs out. *)
Fixpoint recurse (fuel : nat) (left right : list Z) (threshold : list Q)
    (features : list string) (child : nat) (lineage : list step)
  : option (result (list step)) :=
  match fuel with
  | O => None
  | S fuel' =>
      let found :=
        if np_contains left (Z.of_nat child)
        then let? parent := item (np_where_eq left (Z.of_nat child)) in
             Ok (parent, "l")
        else let? parent := item (np_where_eq right (Z.of_nat child)) in
             Ok (parent, "r") in
      match found with
      | Raise e => Some (Raise e)
      | Ok (parent, split) =>
          match index threshold parent with
          | Raise e => Some (Raise e)
          | Ok th =>
              match index features parent with
              | Raise e => Some (Raise e)
              | Ok ft =>
                  let lineage := lineage ++ [(parent, split, th, ft)] in
                  if (parent =? 0)%nat then Some (Ok (reverse lineage))
                  else recurse fuel' left right threshold features parent lineage
              end
          end
      end
  end.

(** The children arrays of a tree as scikit-learn numbers it: a child comes
    after its parent, no node is the child of two nodes or twice the child
    of one, and every node but the root is a child. *)
Definition well_formed (left right : list Z) : Prop :=
  length left = length right ∧
  (∀ p c, (left !! p = Some c ∨ right !! p = Some c) →
          c = (-1)%Z ∨ (Z.of_nat p < c < Z.of_nat (length left))%Z) ∧
  NoDup (filter (λ c, c ≠ (-1)%Z) (left ++ right)) ∧
  (∀ c, (0 < c < length left)%nat → Z.of_nat c ∈ left ++ right).

(** The splits from node [from] down to node [to]: each entry names a node,
    its threshold and feature, and the side on which the next node hangs. *)
Fixpoint is_path (left right : list Z) (threshold : list Q)
    (features : list string) (from : nat) (path : list step) (to : nat) : Prop :=
  match path with
  | [] => from = to
  | (p, s, th, f) :: rest =>
      p = from ∧ threshold !! p = Some th ∧ features !! p = Some f ∧
      ∃ next,
        ((s = "l" ∧ left !! p = Some (Z.of_nat next)) ∨
         (s = "r" ∧ right !! p = Some (Z.of_nat next))) ∧
        is_path left right threshold features next rest to
  end.

End Cart.

(** A tree of five nodes: the root splits on [x], its right child on [y]. *)
Module DemoTree.

Definition left : list Z := [1; -1; 3; -1; -1]%Z.
Definition right : list Z := [2; -1; 4; -1; -1]%Z.
Definition threshold : list Q := [1 # 2; -2; 3 # 2; -2; -2]%Q.
Definition features : list string := ["x"; "y"; "y"; "y"; "y"].

End DemoTree.

(** ** Sampling uncertainties and levers together *)

Section SampleParameters.
Context `{Collaborators}.


End SampleParameters.

(** ** The samplers over binary64

    The definitions above idealise a Python float as a rational. What
    [_pert], [_beta] and [_lhs] compute is repeated here over IEEE binary64
    numbers (round to nearest, ties to even), for the properties that depend
    on rounding. Python ints are read as floats with [of_nat], which is exact
    below [2^53]. *)
Module B64.
Local Open Scope float_scope.

(** [float(n)] *)
Definition of_nat (n : nat) : float :=
  PrimFloat.of_uint63 (Uint63.of_Z (Z.of_nat n)).

(** [x / y] on Python numbers *)
Definition truediv (x y : float) : result float :=
  if y =? 0 then Raise ZeroDivisionError else Ok (x / y).

(** The rational a finite float stands for. *)
Definition to_Q (x : float) : option Q :=
  match Prim2SF x with
  | S754_zero _ => Some 0%Q
  | S754_finite s m e =>
      Some ((if s then - inject_Z (Z.pos m) else inject_Z (Z.pos m)) * 2 ^ e)%Q
  | _ => None
  end.

Record frozen : Type := { fz_dist : scipy_dist; fz_args : list float }.

(** [_beta(alpha, beta, low, high)] *)
Definition _beta (alpha beta low high : float) : result frozen :=
  if negb ((0 <? alpha) && (0 <? beta))
  then Raise (AssertionError "Beta alpha and beta parameters must be greater than zero")
  else if negb (low <? high)
  then Raise (AssertionError "Beta low must be less than high")
  else Ok {| fz_dist := scipy_beta;
             fz_args := [alpha; beta; low; high - low] |}.

(** [_pert(low, peak, high, gamma)] *)
Definition _pert (low peak high gamma : float) : result frozen :=
  let a := low in
  let b := peak in
  let c := high in
  if negb ((a <=? b) && (b <=? c))
  then Raise (AssertionError "PERT peak must be greater than low and less than high")
  else if negb (0 <=? gamma)
  then Raise (AssertionError "PERT g must be non-negative")
  else
    let? mu := truediv (a + gamma * b + c) (gamma + 2) in
    if mu =? b then _beta 3 3 a c
    else
      let? a1 := truediv ((mu - a) * (2 * b - a - c)) ((b - mu) * (c - a)) in
      let? a2 := truediv (a1 * (c - mu)) (mu - a) in
      _beta a1 a2 a c.

(** [_pert2(peak, gamma, low, width)] *)
Definition _pert2 (peak gamma low width : float) : result frozen :=
  _pert low peak (low + width) gamma.

(** [np.linspace(start, stop, num)], as numpy computes it: the points are
    [i * step + start] with [step = (stop - start) / (num - 1)] (or
    [i / (num - 1) * (stop - start) + start] when the step underflows to
    zero), and the last point is set to [stop]. *)
Definition linspace (start stop : float) (num : nat) : list float :=
  let div := of_nat (num - 1) in
  let delta := stop - start in
  match num with
  | 0 => []
  | 1 => [0 * delta + start]
  | _ =>
      let step := delta / div in
      let y (i : nat) :=
        if step =? 0 then of_nat i / div * delta + start
        else of_nat i * step + start in
      (y <$> seq 0 (num - 1)) ++ [stop]
  end.

(** [stats.uniform(loc, scale).ppf(q)]: the bounds of the support at 0 and
    1, not a number outside the unit interval or for a scale that is not
    positive. *)
Definition uniform_ppf (loc scale q : float) : float :=
  if negb ((0 <? scale) && (loc =? loc)) then nan
  else if (0 <? q) && (q <? 1) then q * scale + loc
  else if q =? 0 then 0 * scale + loc
  else if q =? 1 then 1 * scale + loc
  else nan.

(** [stats.uniform( *parms)], as its quantile function *)
Definition stats_uniform (parms : list float) : result (float → float) :=
  match parms with
  | [] => Ok (uniform_ppf 0 1)
  | [loc] => Ok (uniform_ppf loc 1)
  | [loc; scale] => Ok (uniform_ppf loc scale)
  | _ => Raise (TypeError "too many positional arguments")
  end.

Section Lhs.
(** numpy's global random generator *)
Context {state : Type}.
(** [np.random.shuffle] *)
Context (np_random_shuffle : list float → state → list float * state).
(** [size] draws from the unit interval, the source of [rvs] of a uniform *)
Context (np_random_sample : nat → state → list float * state).

(** [stats.uniform(perc, scale).rvs()]: one draw [u] per entry of [perc],
    returned as [u * scale + loc]. *)
Definition uniform_rvs (perc : list float) (scale : float) (st : state)
    : nd float * state :=
  let (us, st) := np_random_sample (length perc) st in
  (squeeze (zip_with (λ loc u, u * scale + loc) perc us), st).

(** [LHSSampler._lhs]; [dist] is the distribution as a callable that gives
    the quantile function of the frozen distribution. *)
Definition _lhs (dist : list float → result (float → float))
    (parms : list float) (siz : nat) (st : state)
    : result (nd float) * state :=
  match truediv (of_nat (siz - 1)) (of_nat siz) with
  | Raise e => (Raise e, st)
  | Ok stop =>
      let perc := linspace 0 stop siz in
      let (perc, st) := np_random_shuffle perc st in
      match truediv 1 (of_nat siz) with
      | Raise e => (Raise e, st)
      | Ok scale =>
          let (smp, st) := uniform_rvs perc scale st in
          match dist parms with
          | Raise e => (Raise e, st)
          | Ok ppf => (Ok (ppf <$> smp), st)
          end
      end
  end.

End Lhs.

(** Modelled from the spec: the stratum [[i/n, (i+1)/n)] of the unit
    interval, over the exact value of the float. *)
Definition in_stratum (n i : nat) (x : float) : bool :=
  match to_Q x with
  | Some q => Qle_bool (Qnat i / Qnat n) q && Qlt_bool q (Qnat (i + 1) / Qnat n)
  | None => false
  end.

(** Modelled from the spec: the number of samples in a stratum. *)
Definition count_in_stratum (n i : nat) (xs : list float) : nat :=
  length (List.filter (in_stratum n i) xs).

End B64.

(** A generator that leaves the order alone and draws from a fixed list,
    which is the state. *)
Module DemoB64.
Local Open Scope float_scope.

Definition shuffle (l : list float) (st : list float) : list float * list float :=
  (l, st).

Definition random_sample (size : nat) (st : list float)
    : list float * list float :=
  (take size st, drop size st).

End DemoB64.

(** * Properties *)

(** ** Python conversions *)





Lemma py_bool_of_int_true (z : Z) : py_bool_of_int z = true ↔ z ≠ 0%Z.
Proof.
  unfold py_bool_of_int. rewrite negb_true_iff, Z.eqb_neq. tauto.
Qed.

Lemma py_eqb_refl (v : pyval) : py_eqb v v = true.
Proof.
  destruct v; unfold py_eqb; simpl; try apply Qeq_bool_refl.
  apply String.eqb_refl.
Qed.

(** ** The design generator *)

Lemma rbind_Ok {A B} (m : result A) (f : A → result B) (b : B) :
  rbind m f = Ok b → ∃ a, m = Ok a ∧ f a = Ok b.
Proof. destruct m; simpl; [eauto | discriminate]. Qed.

Tactic Notation "rbind_inv" hyp(H) "as" ident(a) ident(E) :=
  apply rbind_Ok in H; destruct H as (a & E & H).

Lemma rmap_lookup {A B} (f : A → result B) (l : list A) (l' : list B) i x :
  rmap f l = Ok l' → l !! i = Some x → ∃ y, l' !! i = Some y ∧ f x = Ok y.
Proof.
  revert l' i. induction l as [|a l IH]; intros l' i E Hi; [done|].
  simpl in E. rbind_inv E as y Ey. rbind_inv E as ys Eys. injection E as <-.
  destruct i as [|i]; simpl in *.
  - injection Hi as <-. eauto.
  - eauto.
Qed.

Lemma rmap_length {A B} (f : A → result B) (l : list A) (l' : list B) :
  rmap f l = Ok l' → length l' = length l.
Proof.
  revert l'. induction l as [|a l IH]; intros l' E; simpl in E.
  - by injection E as <-.
  - rbind_inv E as y Ey. rbind_inv E as ys Eys. injection E as <-.
    simpl. f_equal. eauto.
Qed.

Lemma rmap_retract {A B} (f : A → result B) (g : B → A) (l : list A) (l' : list B) :
  (∀ x y, f x = Ok y → f (g y) = Ok y) →
  rmap f l = Ok l' → rmap f (g <$> l') = Ok l'.
Proof.
  intros Hfg. revert l'. induction l as [|a l IH]; intros l' E; simpl in E.
  - by injection E as <-.
  - rbind_inv E as y Ey. rbind_inv E as ys Eys. injection E as <-.
    rewrite fmap_cons. cbn [rmap]. rewrite (Hfg _ _ Ey). cbn [rbind].
    by rewrite (IH _ Eys).
Qed.

Section DesignGeneratorFacts.
Context `{PyRuntime}.

(** Entries of the dict under names that the loop does not visit are kept. *)
Lemma fill_design_dict_other ps design d0 d k :
  fill_design_dict ps design d0 = Ok d →
  k ∉ (name <$> ps) → d !! k = d0 !! k.
Proof.
  revert design d0. induction ps as [|p ps IH]; intros design d0 E Hk.
  - simpl in E. by injection E as <-.
  - destruct design as [|v design]; simpl in E; [by injection E as <-|].
    rbind_inv E as v' Ev.
    rewrite fmap_cons, not_elem_of_cons in Hk. destruct Hk as [Hp Hk].
    rewrite (IH _ _ E Hk). by rewrite lookup_insert_ne.
Qed.

(** With distinct names, the dict holds under each name the coerced value of
    the entry zipped with that parameter. *)
Lemma fill_design_dict_lookup ps design d0 d j p v :
  NoDup (name <$> ps) →
  fill_design_dict ps design d0 = Ok d →
  ps !! j = Some p → design !! j = Some v →
  ∃ v', coerce p v = Ok v' ∧ d !! name p = Some v'.
Proof.
  revert design d0 j. induction ps as [|p0 ps IH]; intros design d0 j ND E Hp Hv;
    [done|].
  destruct design as [|v0 design]; [done|].
  simpl in E. rbind_inv E as v0' Ev.
  rewrite fmap_cons in ND. apply NoDup_cons in ND as [Hn ND].
  destruct j as [|j]; simpl in *.
  - injection Hp as <-. injection Hv as <-. exists v0'. split; [done|].
    rewrite (fill_design_dict_other _ _ _ _ _ E Hn). apply lookup_insert_eq.
  - eauto.
Qed.

(** What the chain of [isinstance] tests comes to for each class: integer
    and boolean parameters both stop at the test for [IntegerParameter]. *)
Lemma coerce_by_class p v :
  coerce p v =
  match ptype p with
  | RealParameter => Ok v
  | IntegerParameter | BooleanParameter =>
      let? z := py_int v in Ok (RVal (VInt z))
  | CategoricalParameter =>
      if negb (in_categories (unwrap_category v) p)
      then let? index := py_int (RVal (unwrap_category v)) in
           let? c := cat_for_index p index in
           Ok (RVal (cat_value c))
      else Ok (RVal (unwrap_category v))
  end.
Proof. unfold coerce, isinstance. by destruct (ptype p). Qed.

Lemma coerce_idempotent p v v' : coerce p v = Ok v' → coerce p v' = Ok v'.
Proof.
  rewrite !coerce_by_class. destruct (ptype p).
  - by intros [= ->].
  - intros E. rbind_inv E as z Ez. by injection E as <-.
  - intros E. rbind_inv E as z Ez. by injection E as <-.
  - destruct (in_categories (unwrap_category v) p) eqn:Hin; simpl.
    + intros [= <-]. simpl. by rewrite Hin.
    + intros E. rbind_inv E as index Ei. rbind_inv E as c' Ec.
      injection E as <-. simpl.
      unfold cat_for_index in Ec. destruct (index <? 0)%Z; [done|].
      destruct (categories p !! Z.to_nat index) as [c|] eqn:Hc; [|done].
      injection Ec as <-.
      assert (in_categories (cat_value c) p = true) as ->; [|done].
      unfold in_categories. apply existsb_exists. exists c. split.
      * apply list_elem_of_In. by eapply list_elem_of_lookup_2.
      * apply py_eqb_refl.
Qed.

Lemma omap_lookup_none (ps : list Param) (d : gmap string raw) :
  (∀ p, p ∈ ps → d !! name p = None) → omap (λ p, d !! name p) ps = [].
Proof.
  induction ps as [|p ps IH]; intros Hd; [done|]. simpl.
  rewrite (Hd p) by left. apply IH. intros q Hq. apply Hd. by right.
Qed.

(** Reading the dict back in parameter order and filling again gives the
    same dict. *)
Lemma fill_design_dict_roundtrip ps design d0 d :
  NoDup (name <$> ps) →
  (∀ p, p ∈ ps → d0 !! name p = None) →
  fill_design_dict ps design d0 = Ok d →
  fill_design_dict ps (omap (λ p, d !! name p) ps) d0 = Ok d.
Proof.
  revert design d0. induction ps as [|p ps IH]; intros design d0 ND Hd0 E.
  - simpl in *. done.
  - rewrite fmap_cons in ND. apply NoDup_cons in ND as [Hn ND].
    destruct design as [|v design]; simpl in E.
    + injection E as <-. rewrite omap_lookup_none by done. done.
    + rbind_inv E as v' Ev. simpl.
      rewrite (fill_design_dict_other _ _ _ _ _ E Hn), lookup_insert_eq.
      simpl. rewrite (coerce_idempotent _ _ _ Ev). simpl.
      apply (IH design); [done| |done].
      intros q Hq. rewrite lookup_insert_ne.
      * apply Hd0. by right.
      * intros Heq. apply Hn. rewrite Heq. by apply list_elem_of_fmap_2.
Qed.


Lemma design_generator_lookup designs ps k objs i design :
  design_generator designs ps (Some k) = Ok objs →
  designs !! i = Some design →
  ∃ d, fill_design_dict ps design ∅ = Ok d ∧
       objs !! i = Some {| nd_kind := k; nd_name := None; nd_data := d |}.
Proof.
  intros E Hi. unfold design_generator in E.
  destruct (rmap_lookup _ _ _ _ _ E Hi) as (o & Ho & Hf).
  rbind_inv Hf as d Ed. simpl in Hf. injection Hf as <-. eauto.
Qed.

End DesignGeneratorFacts.


Lemma in_categories_spec x p :
  in_categories x p = true ↔
  ∃ c, c ∈ categories p ∧ py_eqb x (cat_value c) = true.
Proof.
  unfold in_categories. rewrite existsb_exists. split.
  - intros (c & Hc%list_elem_of_In & E). eauto.
  - intros (c & Hc%list_elem_of_In & E). eauto.
Qed.

(** What the branch for categorical parameters stores for the value [x], be
    it the raw value itself or the value of the [Category] that came in. *)
Lemma coerce_categorical `{PyRuntime} p v x v' :
  ptype p = CategoricalParameter →
  v = RVal x ∨ (∃ c, v = RCat c ∧ cat_value c = x) →
  coerce p v = Ok v' →
  ((∃ c, c ∈ categories p ∧ py_eqb x (cat_value c) = true) → v' = RVal x) ∧
  ((∀ c, c ∈ categories p → py_eqb x (cat_value c) = false) →
     ∃ index c,
       py_int (RVal x) = Ok index ∧ (0 <= index)%Z ∧
       categories p !! Z.to_nat index = Some c ∧
       v' = RVal (cat_value c)).
Proof.
  intros Hk Hv Hc. rewrite coerce_by_class, Hk in Hc.
  assert (unwrap_category v = x) as Hx.
  { destruct Hv as [->|(c & -> & <-)]; done. }
  rewrite Hx in Hc. clear Hx Hv. split.
  - intros Hin%in_categories_spec. rewrite Hin in Hc. simpl in Hc.
    by injection Hc as <-.
  - intros Hout.
    assert (in_categories x p = false) as Hin.
    { apply not_true_is_false. intros (c & Hc' & E)%in_categories_spec.
      rewrite (Hout c Hc') in E. discriminate. }
    rewrite Hin in Hc. simpl in Hc.
    rbind_inv Hc as index Ei. rbind_inv Hc as c' Ec. injection Hc as <-.
    unfold cat_for_index in Ec. destruct (Z.ltb_spec index 0); [done|].
    destruct (categories p !! Z.to_nat index) as [c|] eqn:Hcat; [|done].
    injection Ec as <-. eauto 10.
Qed.

(** C3: for a categorical parameter the design generator stores the raw
    value itself when it equals the value of a declared category (and the
    value of a [Category] object that came in its place), and otherwise the
    value of the category at the index [int(value)] of the ordered category
    list. Reading the values of the produced objects back as raw designs and
    generating again gives the same objects: what is stored is the category
    value, not its index. *)
Theorem design_generator_categorical_roundtrip `{PyRuntime}
    designs ps k objs :
  NoDup (name <$> ps) →
  design_generator designs ps (Some k) = Ok objs →
  (∀ i j design p v x,
     designs !! i = Some design → ps !! j = Some p → design !! j = Some v →
     ptype p = CategoricalParameter →
     v = RVal x ∨ (∃ c, v = RCat c ∧ cat_value c = x) →
     ∃ o, objs !! i = Some o ∧
       ((∃ c, c ∈ categories p ∧ py_eqb x (cat_value c) = true) →
          nd_data o !! name p = Some (RVal x)) ∧
       ((∀ c, c ∈ categories p → py_eqb x (cat_value c) = false) →
          ∃ index c,
            py_int (RVal x) = Ok index ∧
            (0 <= index)%Z ∧
            categories p !! Z.to_nat index = Some c ∧
            nd_data o !! name p = Some (RVal (cat_value c)))) ∧
  design_generator (raw_design ps <$> objs) ps (Some k) = Ok objs.
Proof.
  intros ND E. split.
  - intros i j design p v x Hi Hp Hv Hk Hx.
    destruct (design_generator_lookup _ _ _ _ _ _ E Hi) as (d & Hd & Ho).
    destruct (fill_design_dict_lookup _ _ _ _ _ _ _ ND Hd Hp Hv) as (v' & Hc & Hl).
    eexists. split; [exact Ho|]. simpl.
    destruct (coerce_categorical p v x v' Hk Hx Hc) as [Hin Hout]. split.
    + intros Hdecl. by rewrite (Hin Hdecl) in Hl.
    + intros Hnone. destruct (Hout Hnone) as (index & c & Hi' & H0 & Hcat & ->).
      eauto 10.
  - unfold design_generator in *.
    eapply rmap_retract; [|exact E].
    intros design o Ho. rbind_inv Ho as d Ed. simpl in Ho. injection Ho as <-.
    unfold raw_design. simpl.
    rewrite (fill_design_dict_roundtrip ps design ∅ d); try done.
Qed.

(** ** Latin Hypercube sampling *)

Section LHS.
Context `{Runtime} `{!RandomLaws}.

(** One run of [_lhs], step by step. *)
Lemma _lhs_run dist parms siz w :
  (1 ≤ siz)%nat →
  let perc := linspace 0 (inject_Z (Z.of_nat siz - 1) / Qnat siz) siz in
  let sh := np_random_shuffle perc (ext w) in
  let dr := np_random_sample (length sh.1) sh.2 in
  let smp := zip_with (λ loc u, (loc + 1 / Qnat siz * u)%Q) sh.1 dr.1 in
  let w' := {| cwd := cwd w; ext := dr.2;
               trace := trace w ++ [EvRandom "shuffle" siz;
                                    EvRandom "rvs" (length sh.1)] |} in
  _lhs dist parms siz w =
  match call_dist dist parms with
  | Ok v => (Ok (frozen_ppf v <$> squeeze smp), w')
  | Raise e => (Raise e, w')
  end.
Proof.
  intros Hn. cbv zeta.
  unfold _lhs, uniform_rvs, bind, lift, on_ext, emit, add_trace, ret, qdiv.
  assert (Qeq_bool (Qnat siz) 0 = false) as ->.
  { apply not_true_is_false. intros E. apply Qeq_bool_iff in E.
    unfold Qnat, Qeq in E; simpl in E. lia. }
  simpl.
  destruct (np_random_shuffle _ (ext w)) as [perc' s1] eqn:Esh. simpl.
  destruct (np_random_sample (length perc') s1) as [us s2] eqn:Edr. simpl.
  rewrite <- app_assoc. simpl.
  destruct (call_dist dist parms); reflexivity.
Qed.

End LHS.

(** ** The state and exception monad *)

Section MonadFacts.
Context `{Runtime}.

Lemma bind_Ok {A B} (m : M A) (f : A → M B) w b w' :
  bind m f w = (Ok b, w') → ∃ a w1, m w = (Ok a, w1) ∧ f a w1 = (Ok b, w').
Proof.
  unfold bind. destruct (m w) as [[a|e] w1]; [eauto|discriminate].
Qed.

Lemma bind_run {A B} (m : M A) (f : A → M B) w a w1 :
  m w = (Ok a, w1) → bind m f w = f a w1.
Proof. unfold bind. by intros ->. Qed.

Lemma bind_raise {A B} (m : M A) (f : A → M B) w e w1 :
  m w = (Raise e, w1) → bind m f w = (Raise e, w1).
Proof. unfold bind. by intros ->. Qed.

Lemma foldM_app {A B} (f : B → A → M B) acc l1 l2 w :
  foldM f acc (l1 ++ l2) w = bind (foldM f acc l1) (λ acc', foldM f acc' l2) w.
Proof.
  revert acc w. induction l1 as [|x l1 IH]; intros acc w; simpl.
  - reflexivity.
  - unfold bind. destruct (f acc x w) as [[b|e] w1]; [|done].
    rewrite IH. reflexivity.
Qed.

Lemma add_trace_app (w : world) l1 l2 :
  add_trace (add_trace w l1) l2 = add_trace w (l1 ++ l2).
Proof. unfold add_trace; simpl. by rewrite app_assoc. Qed.

End MonadFacts.

Tactic Notation "bind_inv" hyp(H) "as" ident(a) ident(w) ident(E) :=
  apply bind_Ok in H; destruct H as (a & w & E & H).

(** ** The evaluators *)

Section EvaluatorFacts.
Context `{Collaborators}.

(** C10: when the sequential evaluator's [evaluate_experiments] returns, the
    working directory is the one it started in, whatever the model runs and
    the cleanup did to it. *)
Theorem sequential_evaluate_restores_cwd _msis scenarios policies callback w
    callback' w' :
  SequentialEvaluator_evaluate_experiments _msis scenarios policies callback w
    = (Ok callback', w') →
  cwd w' = cwd w.
Proof.
  unfold SequentialEvaluator_evaluate_experiments. intros E.
  bind_inv E as u w1 E1. injection E1 as _ <-.
  bind_inv E as dir w2 E2. injection E2 as <- <-.
  bind_inv E as ex_gen w3 E3.
  bind_inv E as cb w4 E4.
  bind_inv E as u5 w5 E5.
  bind_inv E as u6 w6 E6.
  injection E as _ <-.
  unfold chdir in E6. destruct (dir_exists _ _); [|discriminate].
  by injection E6 as _ <-.
Qed.

(** C5: with both the scenarios and the policies zero or empty,
    [perform_experiments] raises at once: the world is untouched, so nothing
    was sampled, no callback was built and no evaluator was created or run. *)
Theorem perform_experiments_nothing_to_run models scenarios policies ev
    uncertainty_union lever_union outcome_union uncertainty_sampling
    levers_sampling w :
  py_not scenarios = true → py_not policies = true →
  perform_experiments models scenarios policies ev uncertainty_union
    lever_union outcome_union uncertainty_sampling levers_sampling w
  = (Raise (EMAError "no experiments possible since both scenarios and policies are 0"), w).
Proof.
  intros Hs Hp. unfold perform_experiments. rewrite Hs, Hp. reflexivity.
Qed.

(** C8: leaving the scope of the pool evaluator. After an exception the pool
    is terminated, nothing waits for the workers and [__exit__] returns
    [False], so the exception goes on; without one the pool is closed and
    then joined. *)
Theorem pool_exit_aborts_or_drains (ev : MultiprocessingPoolEvaluator) p w :
  _pool ev = Some p →
  (∀ e, MultiprocessingPoolEvaluator_exit ev (Some e) w =
        (Ok (ReturnFalse, set_pool ev TERMINATE),
         add_trace w [EvLog "terminating pool"; EvPoolTerminate])) ∧
  MultiprocessingPoolEvaluator_exit ev None w =
    (Ok (ReturnNone, set_pool ev (match p with RUN => CLOSE | _ => p end)),
     add_trace w [EvLog "terminating pool"; EvPoolClose; EvPoolJoin]) ∧
  (∀ A (body : MultiprocessingPoolEvaluator → M A) e wb,
     body (set_pool ev RUN) (add_trace w [EvPoolStart; EvLog "pool started"])
       = (Raise e, wb) →
     with_pool ev body w =
       (Raise e, add_trace wb [EvLog "terminating pool"; EvPoolTerminate])) ∧
  (∀ A (body : MultiprocessingPoolEvaluator → M A) a wb,
     body (set_pool ev RUN) (add_trace w [EvPoolStart; EvLog "pool started"])
       = (Ok a, wb) →
     with_pool ev body w =
       (Ok (Some a),
        add_trace wb [EvLog "terminating pool"; EvPoolClose; EvPoolJoin])).
Proof.
  intros Hp.
  assert (∀ (ev : MultiprocessingPoolEvaluator) p w e,
            _pool ev = Some p →
            MultiprocessingPoolEvaluator_exit ev (Some e) w =
            (Ok (ReturnFalse, set_pool ev TERMINATE),
             add_trace w [EvLog "terminating pool"; EvPoolTerminate])) as Habort.
  { clear. intros ev p w e Hp.
    unfold MultiprocessingPoolEvaluator_exit, the_pool, pool_terminate, bind,
      emit, ret. rewrite Hp. simpl. by rewrite add_trace_app. }
  assert (∀ (ev : MultiprocessingPoolEvaluator) p w,
            _pool ev = Some p →
            MultiprocessingPoolEvaluator_exit ev None w =
            (Ok (ReturnNone, set_pool ev (match p with RUN => CLOSE | _ => p end)),
             add_trace w [EvLog "terminating pool"; EvPoolClose; EvPoolJoin]))
    as Hdrain.
  { clear. intros ev p w Hp.
    unfold MultiprocessingPoolEvaluator_exit, the_pool, pool_close, pool_join,
      bind, emit, ret. rewrite Hp. simpl.
    destruct p; simpl; by rewrite !add_trace_app. }
  assert (∀ w, MultiprocessingPoolEvaluator_enter ev w =
               (Ok (set_pool ev RUN),
                add_trace w [EvPoolStart; EvLog "pool started"])) as Henter.
  { clear. intros w.
    unfold MultiprocessingPoolEvaluator_enter, bind, emit, ret.
    by rewrite add_trace_app. }
  split; [intros e; by eapply Habort|]. split; [by eapply Hdrain|].
  split.
  - intros A body e wb Hb. unfold with_pool.
    rewrite (bind_run _ _ _ _ _ (Henter w)), Hb.
    rewrite (bind_run _ _ _ _ _ (Habort (set_pool ev RUN) RUN wb e eq_refl)). reflexivity.
  - intros A body a wb Hb. unfold with_pool.
    rewrite (bind_run _ _ _ _ _ (Henter w)), Hb.
    rewrite (bind_run _ _ _ _ _ (Hdrain (set_pool ev RUN) RUN wb eq_refl)). reflexivity.
Qed.

End EvaluatorFacts.

Lemma length_bind_const {A B} (f : A → list B) (l : list A) k :
  (∀ x, length (f x) = k) → length (l ≫= f) = (length l * k)%nat.
Proof.
  intros Hf. induction l as [|x l IH]; [done|].
  rewrite bind_cons, length_app, Hf, IH. simpl. lia.
Qed.

Section ExperimentFacts.
Context `{PyRuntime}.


End ExperimentFacts.


Section SequentialFacts.
Context `{Collaborators}.



(** What a successful [perform_experiments] went through. *)
Lemma perform_experiments_Ok models scenarios policies ev
    uncertainty_union lever_union outcome_union uncertainty_sampling
    levers_sampling w res w' :
  perform_experiments models scenarios policies ev uncertainty_union
    lever_union outcome_union uncertainty_sampling levers_sampling w
  = (Ok res, w') →
  ∃ sc unc ns w1 po lev np w2 evf w3 cb w4,
    resolve_scenarios models scenarios uncertainty_union uncertainty_sampling w
      = (Ok (sc, unc, ns), w1) ∧
    resolve_policies models policies lever_union levers_sampling w1
      = (Ok (po, lev, np), w2) ∧
    evf = default (SequentialEvaluator_evaluate_experiments (msis_of models)) ev ∧
    evf sc po (DefaultCallback_init unc lev (determine_outcomes models outcome_union)
                 (n_models_of models * ns * np)) w3 = (Ok cb, w4) ∧
    cb_i cb = (n_models_of models * ns * np)%nat ∧
    res = get_results cb.
Proof.
  unfold perform_experiments. intros E.
  destruct (py_not scenarios && py_not policies); [discriminate|].
  bind_inv E as x w1 E1. destruct x as [[sc unc] ns].
  bind_inv E as y w2 E2. destruct y as [[po lev] np].
  bind_inv E as u3 w3 E3.
  bind_inv E as u4 w4 E4.
  bind_inv E as evf w5 E5.
  bind_inv E as cb w6 E6.
  destruct (Nat.eqb_spec (cb_i cb) (n_models_of models * ns * np)) as [Hi|Hi];
    simpl in E; [|discriminate].
  bind_inv E as u7 w7 E7. injection E as <- <-.
  exists sc, unc, ns, w1, po, lev, np, w2, evf, w5, cb, w6.
  repeat (split; [done|]). repeat split; try done.
  destruct ev as [ev|]; simpl in *.
  - by injection E5 as <- <-.
  - bind_inv E5 as u8 w8 E8. by injection E5 as <- <-.
Qed.

End SequentialFacts.

Section PerformExperimentsFacts.
Context `{Collaborators}.





(** C4: [perform_experiments] returns results only when the callback has
    counted exactly models x scenarios x policies calls; when the evaluator
    comes back with any other count, it raises [EMAError] and returns
    nothing. *)
Theorem perform_experiments_incomplete_is_fatal models scenarios policies
    uncertainty_union lever_union outcome_union uncertainty_sampling
    levers_sampling w :
  (∀ ev res w',
     perform_experiments models scenarios policies ev uncertainty_union
       lever_union outcome_union uncertainty_sampling levers_sampling w
     = (Ok res, w') →
     ∃ sc unc ns w1 po lev np w2 w3 cb w4,
       resolve_scenarios models scenarios uncertainty_union
         uncertainty_sampling w = (Ok (sc, unc, ns), w1) ∧
       resolve_policies models policies lever_union levers_sampling w1
         = (Ok (po, lev, np), w2) ∧
       default (SequentialEvaluator_evaluate_experiments (msis_of models)) ev
         sc po
         (DefaultCallback_init unc lev (determine_outcomes models outcome_union)
            (n_models_of models * ns * np)) w3 = (Ok cb, w4) ∧
       cb_i cb = (n_models_of models * ns * np)%nat ∧
       res = get_results cb) ∧
  (∀ (ev : evaluator) sc unc ns w1 po lev np w2 cb w4,
     py_not scenarios && py_not policies = false →
     resolve_scenarios models scenarios uncertainty_union
       uncertainty_sampling w = (Ok (sc, unc, ns), w1) →
     resolve_policies models policies lever_union levers_sampling w1
       = (Ok (po, lev, np), w2) →
     ev sc po
       (DefaultCallback_init unc lev (determine_outcomes models outcome_union)
          (n_models_of models * ns * np))
       (add_trace w2 [EvDetermineObjects "outcomes";
                      EvNewCallback (n_models_of models * ns * np)])
       = (Ok cb, w4) →
     cb_i cb ≠ (n_models_of models * ns * np)%nat →
     perform_experiments models scenarios policies (Some ev) uncertainty_union
       lever_union outcome_union uncertainty_sampling levers_sampling w
     = (Raise (EMAError "some fatal error has occurred while running the experiments, not all runs have completed"), w4)).
Proof.
  split.
  - intros ev res w' E.
    destruct (perform_experiments_Ok _ _ _ _ _ _ _ _ _ _ _ _ E)
      as (sc & unc & ns & w1 & po & lev & np & w2 & evf & w3 & cb & w4 &
          E1 & E2 & -> & E3 & Hi & ->).
    exists sc, unc, ns, w1, po, lev, np, w2, w3, cb, w4. done.
  - intros ev sc unc ns w1 po lev np w2 cb w4 Hnot E1 E2 E3 Hi.
    unfold perform_experiments. rewrite Hnot.
    rewrite (bind_run _ _ _ _ _ E1). cbv beta iota.
    rewrite (bind_run _ _ _ _ _ E2). cbv beta iota.
    unfold emit at 1. unfold bind at 1. unfold emit at 1. unfold bind at 1.
    unfold ret at 1. unfold bind at 1. rewrite add_trace_app. simpl app.
    rewrite (bind_run _ _ _ _ _ E3).
    destruct (Nat.eqb_spec (cb_i cb) (n_models_of models * ns * np)); [done|].
    reflexivity.
Qed.


End PerformExperimentsFacts.
(** ** More on the evaluators *)

Section EvaluatorTraces.
Context `{Collaborators}.

Lemma sequential_step_trace _msis cb e w r w1 :
  (let! result := runner_run_experiment _msis e in
   lift (DefaultCallback_call cb e result)) w = (r, w1) →
  trace w1 = trace w ++ [EvRunExperiment (experiment_id e)].
Proof.
  cbv [bind runner_run_experiment emit lift add_trace]. simpl.
  destruct (run_experiment _msis e (cwd w, ext w)) as [[res|err] [d s]];
    intros E; by injection E as _ <-.
Qed.

(** The loop of the sequential evaluator logs one run per experiment it
    started, in order; when it completes it has started them all. *)
Lemma sequential_loop_trace _msis exps cb w r w' :
  foldM (λ callback experiment,
           let! result := runner_run_experiment _msis experiment in
           lift (DefaultCallback_call callback experiment result))
        cb exps w = (r, w') →
  ∃ started,
    trace w' = trace w ++ (EvRunExperiment <$> (experiment_id <$> started)) ∧
    started `prefix_of` exps ∧
    (∀ cb', r = Ok cb' → started = exps).
Proof.
  revert cb w. induction exps as [|e exps IH]; intros cb w E; simpl in E.
  - injection E as <- <-. exists []. simpl. rewrite app_nil_r.
    split; [done|]. split; [done|]. done.
  - unfold bind at 1 in E.
    destruct (bind (runner_run_experiment _msis e) _ w) as [[cb1|err] w1] eqn:E1.
    + apply IH in E as (started & Ht & Hp & Hall).
      pose proof (sequential_step_trace _ _ _ _ _ _ E1) as Hw1.
      exists (e :: started). split; [|split].
      * rewrite Ht, Hw1, <- app_assoc. done.
      * by apply prefix_cons.
      * intros cb' Hr. f_equal. by eapply Hall.
    + injection E as <- <-. exists [e]. split; [|split].
      * apply (sequential_step_trace _ _ _ _ _ _ E1).
      * apply prefix_cons, prefix_nil.
      * done.
Qed.

(** When the sequential evaluator returns, it has run every experiment of the
    generator exactly once, in the order of the generator, has then cleaned
    the runner up, and has called nothing else. *)
Theorem sequential_evaluator_runs_all_in_order _msis scenarios policies cb w
    cb' w' :
  SequentialEvaluator_evaluate_experiments _msis scenarios policies cb w
    = (Ok cb', w') →
  ∃ exps,
    experiment_generator scenarios _msis policies = Ok exps ∧
    trace w' = trace w ++ [EvLog "performing experiments sequentially"]
                 ++ (EvRunExperiment <$> (experiment_id <$> exps))
                 ++ [EvRunnerCleanup].
Proof.
  unfold SequentialEvaluator_evaluate_experiments. intros E.
  bind_inv E as u w1 E1. injection E1 as _ <-.
  bind_inv E as dir w2 E2. injection E2 as <- <-.
  bind_inv E as ex_gen w3 E3. unfold lift in E3. injection E3 as E3 <-.
  bind_inv E as cb1 w4 E4.
  bind_inv E as u5 w5 E5.
  bind_inv E as u6 w6 E6.
  injection E as _ <-.
  exists ex_gen. split; [done|].
  apply sequential_loop_trace in E4 as (started & Ht & _ & Hall).
  rewrite (Hall cb1 eq_refl) in Ht.
  unfold chdir in E6. destruct (dir_exists _ _); [|discriminate].
  injection E6 as _ <-. simpl.
  unfold runner_cleanup_call, bind, emit, add_trace in E5. simpl in E5.
  destruct (runner_cleanup _) as [[u0|err] [d s]]; [|discriminate].
  injection E5 as _ <-. simpl.
  rewrite Ht. simpl. by rewrite <- !app_assoc.
Qed.

(** The sequential evaluator has no clean-up of its own for failures. When
    it raises, one of three things happened. A run, the callback or the
    generator failed: then all it has called are the runs it started, the
    runner was not cleaned up and the working directory is where the last
    run left it. Or every experiment ran and [runner.cleanup()] itself
    failed: then the directory is where the clean-up left it. Or the change
    back to the starting directory failed, after the clean-up. *)
Theorem sequential_evaluator_failure_skips_cleanup _msis scenarios policies cb
    w e w' :
  SequentialEvaluator_evaluate_experiments _msis scenarios policies cb w
    = (Raise e, w') →
  (∃ started,
     trace w' = trace w ++ EvLog "performing experiments sequentially"
                  :: (EvRunExperiment <$> (experiment_id <$> started)) ∧
     (∀ exps, experiment_generator scenarios _msis policies = Ok exps →
              started `prefix_of` exps))
  ∨ (∃ exps w1,
       experiment_generator scenarios _msis policies = Ok exps ∧
       trace w1 = trace w ++ EvLog "performing experiments sequentially"
                    :: (EvRunExperiment <$> (experiment_id <$> exps)) ∧
       trace w' = trace w1 ++ [EvRunnerCleanup] ∧
       ((runner_cleanup (cwd w1, ext w1) = (Raise e, (cwd w', ext w')))
        ∨ (e = OSError "No such file or directory" ∧
           dir_exists (cwd w) (ext w') = false ∧
           runner_cleanup (cwd w1, ext w1) = (Ok tt, (cwd w', ext w'))))).
Proof.
  unfold SequentialEvaluator_evaluate_experiments. intros E.
  unfold bind at 1 in E. simpl in E.
  unfold bind at 1 in E. simpl in E.
  unfold bind at 1, lift at 1 in E.
  destruct (experiment_generator scenarios _msis policies) as [exps|err].
  2:{ injection E as <- <-. left. exists []. done. }
  unfold bind at 1 in E.
  destruct (foldM _ cb exps _) as [[cb1|err] w1] eqn:E1.
  - apply sequential_loop_trace in E1 as (started & Ht & _ & Hall).
    simpl in Ht. rewrite (Hall cb1 eq_refl) in Ht.
    right. exists exps, w1. split; [done|].
    split; [by rewrite Ht, <- app_assoc|].
    unfold bind at 1 in E.
    unfold runner_cleanup_call, bind at 1, emit, add_trace in E. simpl in E.
    destruct (runner_cleanup _) as [[[]|err] [d s]] eqn:Ec; simpl in E.
    + unfold bind, chdir in E. simpl in E.
      destruct (dir_exists _ _) eqn:Ed; [discriminate|].
      injection E as <- <-. simpl. split; [done|]. right. done.
    + injection E as <- <-. simpl. split; [done|]. by left.
  - injection E as <- <-. left.
    apply sequential_loop_trace in E1 as (started & Ht & Hp & _).
    exists started. split.
    + rewrite Ht. simpl. by rewrite <- app_assoc.
    + intros exps' [= <-]. done.
Qed.

End EvaluatorTraces.
Section EvaluatorErrors.
Context `{Collaborators}.

Lemma new_sampler_unknown key :
  SAMPLERS !! key = None → new_sampler key = Raise (KeyError key).
Proof. intros Hk. unfold new_sampler, getitem. by rewrite Hk. Qed.

(** A sampler name that is not in [SAMPLERS] is a [KeyError]. For the
    uncertainties it is raised before anything else happens; for the levers
    only after the scenarios have been resolved, so after the uncertainties
    were sampled. *)
Theorem perform_experiments_unknown_sampler models ev uncertainty_union
    lever_union outcome_union key other n w :
  SAMPLERS !! key = None →
  (∀ policies,
     perform_experiments models (SpecInt (S n)) policies ev uncertainty_union
       lever_union outcome_union key other w = (Raise (KeyError key), w)) ∧
  (∀ scenarios x w1,
     resolve_scenarios models scenarios uncertainty_union other w = (Ok x, w1) →
     perform_experiments models scenarios (SpecInt (S n)) ev uncertainty_union
       lever_union outcome_union other key w = (Raise (KeyError key), w1)).
Proof.
  intros Hk. split.
  - intros policies. unfold perform_experiments. simpl.
    unfold bind at 1. unfold resolve_scenarios. simpl.
    unfold bind at 1, lift. by rewrite new_sampler_unknown.
  - intros scenarios x w1 Hs. unfold perform_experiments.
    replace (py_not scenarios && py_not (SpecInt (S n))) with false
      by (by rewrite andb_false_r).
    unfold bind at 1. rewrite Hs. destruct x as [[sc unc] ns].
    unfold bind at 1. unfold resolve_policies. simpl.
    unfold bind at 1, lift. by rewrite new_sampler_unknown.
Qed.

(** The statement [with evaluator: body] over the pool evaluator: the pool is
    started before the body runs; when the body returns, the pool is closed
    and joined and the value is returned; when the body raises, the pool is
    terminated, neither closed nor joined, and the same exception is raised
    again: it is never swallowed. *)
Theorem with_pool_shuts_the_pool_down {A} ev (body : _ → M A) w :
  with_pool ev body w =
  match body (set_pool ev RUN)
             (add_trace w [EvPoolStart; EvLog "pool started"]) with
  | (Ok a, w2) =>
      (Ok (Some a),
       add_trace w2 [EvLog "terminating pool"; EvPoolClose; EvPoolJoin])
  | (Raise e, w2) =>
      (Raise e, add_trace w2 [EvLog "terminating pool"; EvPoolTerminate])
  end.
Proof.
  unfold with_pool, MultiprocessingPoolEvaluator_enter.
  unfold bind at 1. unfold bind at 1. unfold emit at 1. unfold bind at 1.
  unfold emit at 1. unfold ret at 1. rewrite add_trace_app. simpl app.
  destruct (body _ _) as [[a|e] w2].
  - unfold MultiprocessingPoolEvaluator_exit, the_pool, pool_close, pool_join,
      bind, emit, ret, add_trace. simpl. rewrite <- !app_assoc. reflexivity.
  - unfold MultiprocessingPoolEvaluator_exit, the_pool, pool_terminate,
      bind, emit, ret, raise, add_trace. simpl. rewrite <- !app_assoc.
    reflexivity.
Qed.

End EvaluatorErrors.
(** ** The lineage of a leaf in a fitted tree *)

Lemma elem_of_where_eq_from i a v j :
  j ∈ Cart.where_eq_from i a v ↔ ∃ k, j = (i + k)%nat ∧ a !! k = Some v.
Proof.
  revert i. induction a as [|x a IH]; intros i; simpl.
  - split; [by intros ?%elem_of_nil|]. by intros (k & _ & ?).
  - destruct (Z.eqb_spec x v) as [->|Hne].
    + rewrite elem_of_cons, IH. split.
      * intros [->|(k & -> & Hk)]; [exists 0%nat|exists (S k)];
          (split; [lia|done]).
      * intros ([|k] & -> & Hk); [left; lia|].
        right. exists k. split; [lia|done].
    + rewrite IH. split.
      * intros (k & -> & Hk). exists (S k). split; [lia|done].
      * intros ([|k] & -> & Hk); [simpl in Hk; congruence|].
        exists k. split; [lia|done].
Qed.

Lemma NoDup_where_eq_from i a v : NoDup (Cart.where_eq_from i a v).
Proof.
  revert i. induction a as [|x a IH]; intros i; simpl; [constructor|].
  destruct (x =? v)%Z; [|done]. constructor; [|done].
  intros (k & Hk & _)%elem_of_where_eq_from. lia.
Qed.

Lemma elem_of_np_where_eq a v j : j ∈ Cart.np_where_eq a v ↔ a !! j = Some v.
Proof.
  unfold Cart.np_where_eq. rewrite elem_of_where_eq_from. split.
  - by intros (k & -> & Hk).
  - intros Hj. by exists j.
Qed.

Lemma np_contains_spec a v : Cart.np_contains a v = true ↔ v ∈ a.
Proof.
  unfold Cart.np_contains. rewrite existsb_exists. split.
  - intros (x & Hx%list_elem_of_In & ->%Z.eqb_eq). done.
  - intros Hv. exists v. split; [by apply list_elem_of_In|apply Z.eqb_refl].
Qed.

Lemma NoDup_singleton_eq {A} (l : list A) x :
  NoDup l → x ∈ l → (∀ y, y ∈ l → y = x) → l = [x].
Proof.
  intros ND Hx Hall. destruct l as [|y l]; [by apply elem_of_nil in Hx|].
  assert (y = x) as -> by (apply Hall; left).
  destruct l as [|z l]; [done|].
  assert (z = x) as -> by (apply Hall; right; left).
  apply NoDup_cons in ND as [Hn _]. exfalso. apply Hn. left.
Qed.

Lemma np_where_eq_unique a v p :
  a !! p = Some v → (∀ q, a !! q = Some v → q = p) →
  Cart.np_where_eq a v = [p].
Proof.
  intros Hp Hu. apply NoDup_singleton_eq.
  - apply NoDup_where_eq_from.
  - by apply elem_of_np_where_eq.
  - intros q Hq%elem_of_np_where_eq. by apply Hu.
Qed.

Lemma NoDup_filter_lookup {A} (P : A → Prop) `{∀ x, Decision (P x)}
    (l : list A) i j x :
  NoDup (filter P l) → P x → l !! i = Some x → l !! j = Some x → i = j.
Proof.
  revert i j. induction l as [|y l IH]; intros i j ND HP Hi Hj; [done|].
  rewrite filter_cons in ND. destruct (decide (P y)) as [Hy|Hy].
  - apply NoDup_cons in ND as [Hn ND].
    destruct i as [|i], j as [|j]; simpl in *.
    + done.
    + injection Hi as ->. exfalso. apply Hn.
      apply list_elem_of_filter. split; [done|]. by eapply list_elem_of_lookup_2.
    + injection Hj as ->. exfalso. apply Hn.
      apply list_elem_of_filter. split; [done|]. by eapply list_elem_of_lookup_2.
    + f_equal. by apply IH.
  - destruct i as [|i], j as [|j]; simpl in *.
    + done.
    + injection Hi as ->. done.
    + injection Hj as ->. done.
    + f_equal. by apply IH.
Qed.
Section Lineage.
Variables (left right : list Z) (threshold : list Q) (features : list string).
Hypothesis WF : Cart.well_formed left right.
Hypothesis Hthreshold : length threshold = length left.
Hypothesis Hfeatures : length features = length left.

(** What the first half of [recurse] finds for a node that is not the root:
    its one parent, on the side on which the node hangs, and the parent
    comes before the node. *)
Lemma recurse_finds_parent child :
  (0 < child < length left)%nat →
  ∃ parent split,
    (if Cart.np_contains left (Z.of_nat child)
     then let? parent := Cart.item (Cart.np_where_eq left (Z.of_nat child)) in
          Ok (parent, "l")
     else let? parent := Cart.item (Cart.np_where_eq right (Z.of_nat child)) in
          Ok (parent, "r")) = Ok (parent, split) ∧
    (parent < child)%nat ∧
    ((split = "l" ∧ left !! parent = Some (Z.of_nat child)) ∨
     (split = "r" ∧ right !! parent = Some (Z.of_nat child))).
Proof.
  intros Hc. destruct WF as (Hlen & Hafter & ND & Hall).
  assert (Z.of_nat child ≠ (-1)%Z) as Hleaf by lia.
  destruct (Cart.np_contains left (Z.of_nat child)) eqn:E.
  - apply np_contains_spec, list_elem_of_lookup in E as [p Hp].
    exists p, "l".
    rewrite (np_where_eq_unique left _ p Hp).
    + split; [done|]. split; [|by left].
      destruct (Hafter p _ (or_introl Hp)); lia.
    + intros q Hq.
      apply (NoDup_filter_lookup (λ c, c ≠ (-1)%Z) (left ++ right) q p
               (Z.of_nat child));
        [done|done| |]; by apply lookup_app_l_Some.
  - assert (Z.of_nat child ∉ left) as Hnl.
    { intros Hin%np_contains_spec. congruence. }
    specialize (Hall child Hc). apply elem_of_app in Hall as [?|Hr]; [done|].
    apply list_elem_of_lookup in Hr as [p Hp].
    exists p, "r".
    rewrite (np_where_eq_unique right _ p Hp).
    + split; [done|]. split; [|by right].
      destruct (Hafter p _ (or_intror Hp)); lia.
    + intros q Hq.
      assert (length left + q = length left + p)%nat; [|lia].
      apply (NoDup_filter_lookup (λ c, c ≠ (-1)%Z) (left ++ right) _ _
               (Z.of_nat child));
        [done|done| |]; by rewrite lookup_app_r, Nat.add_comm, Nat.add_sub by lia.
Qed.

Lemma is_path_snoc from path p s th f to :
  Cart.is_path left right threshold features from path p →
  threshold !! p = Some th → features !! p = Some f →
  ((s = "l" ∧ left !! p = Some (Z.of_nat to)) ∨
   (s = "r" ∧ right !! p = Some (Z.of_nat to))) →
  Cart.is_path left right threshold features from (path ++ [(p, s, th, f)]) to.
Proof.
  revert from. induction path as [|[[[p' s'] th'] f'] path IH];
    intros from Hpath Hth Hf Hside; simpl in *.
  - subst from. split; [done|]. split; [done|]. split; [done|].
    exists to. done.
  - destruct Hpath as (-> & Hth' & Hf' & next & Hside' & Hrest).
    split; [done|]. split; [done|]. split; [done|].
    exists next. split; [done|]. by apply IH.
Qed.

Lemma recurse_lineage child :
  ∀ fuel lineage,
    (0 < child < length left)%nat → (child ≤ fuel)%nat →
    ∃ path,
      Cart.recurse fuel left right threshold features child lineage
        = Some (Ok (path ++ reverse lineage)) ∧
      Cart.is_path left right threshold features 0 path child.
Proof.
  induction (lt_wf child) as [child _ IH]. intros fuel lineage Hc Hfuel.
  destruct fuel as [|fuel]; [lia|]. simpl.
  destruct (recurse_finds_parent child Hc) as (p & s & -> & Hlt & Hside).
  assert (p < length left)%nat as Hp by lia.
  destruct (lookup_lt_is_Some_2 threshold p) as [th Hth]; [lia|].
  destruct (lookup_lt_is_Some_2 features p) as [f Hf]; [lia|].
  unfold Cart.index. rewrite Hth, Hf.
  destruct (Nat.eqb_spec p 0) as [->|Hp0].
  - exists [(0%nat, s, th, f)]. split.
    + by rewrite reverse_snoc.
    + simpl. split; [done|]. split; [done|]. split; [done|]. by exists child.
  - destruct (IH p Hlt fuel (lineage ++ [(p, s, th, f)])) as (path & Hrun & Hpath);
      [lia|lia|].
    exists (path ++ [(p, s, th, f)]). split.
    + rewrite Hrun, reverse_snoc, <- app_assoc. done.
    + by apply is_path_snoc.
Qed.

End Lineage.

(** On a tree as scikit-learn numbers it, [recurse] returns for every node
    but the root, within as many calls as the number of the node, the splits
    from the root down to that node: the first entry is the root, each entry
    carries the threshold and the feature of its node and the side on which
    the next node hangs, and the last entry is the parent of the node. *)
Theorem recurse_returns_the_path_from_the_root left right threshold features
    child fuel :
  Cart.well_formed left right →
  length threshold = length left →
  length features = length left →
  (0 < child < length left)%nat → (child ≤ fuel)%nat →
  ∃ path,
    Cart.recurse fuel left right threshold features child [] = Some (Ok path) ∧
    path ≠ [] ∧
    Cart.is_path left right threshold features 0 path child.
Proof.
  intros WF Hth Hf Hc Hfuel.
  destruct (recurse_lineage left right threshold features WF Hth Hf child fuel []
              Hc Hfuel) as (path & Hrun & Hpath).
  exists path. rewrite app_nil_r in Hrun. split; [done|]. split; [|done].
  intros ->. simpl in Hpath. lia.
Qed.

(** The root has no lineage: [recurse] looks for a parent of the node it is
    given, and on the root, which hangs under no node, taking the one element
    of an empty array raises [ValueError]. A tree without a split has the
    root as its only leaf, so that is where the lineages of its leaves end. *)
Theorem recurse_of_the_root_raises left right threshold features fuel lineage :
  0%Z ∉ left → 0%Z ∉ right →
  Cart.recurse (S fuel) left right threshold features 0 lineage
  = Some (Raise (ValueError
                   "can only convert an array of size 1 to a Python scalar")) ∧
  (∀ t, Cart.children_left t = [(-1)%Z] → Cart.leafs t = [0%nat]).
Proof.
  intros Hl Hr. split.
  - simpl. change (Z.of_nat 0) with 0%Z.
    destruct (Cart.np_contains left 0) eqn:E.
    { apply np_contains_spec in E. done. }
    assert (Cart.np_where_eq right 0 = []) as ->; [|done].
    apply elem_of_nil_inv. intros q Hq%elem_of_np_where_eq.
    apply Hr. by eapply list_elem_of_lookup_2.
  - intros t Ht. unfold Cart.leafs. by rewrite Ht.
Qed.

Lemma list_getitem_error {A} (l : list A) i e :
  Cart.list_getitem l i = Raise e → ∃ msg, e = IndexError msg.
Proof.
  unfold Cart.list_getitem, Cart.index.
  destruct (_ <? 0)%Z; [intros [= <-]; eauto|].
  destruct (l !! _); [done|]. intros [= <-]. eauto.
Qed.

Lemma features_error {A} (names : list A) fs e :
  rmap (Cart.list_getitem names) fs = Raise e → ∃ msg, e = IndexError msg.
Proof.
  induction fs as [|f fs IH]; simpl; [done|].
  destruct (Cart.list_getitem names f) as [x|e'] eqn:E; simpl.
  - destruct (rmap _ fs) as [xs|e'']; simpl; [done|].
    intros [= <-]. by apply IH.
  - intros [= <-]. by eapply list_getitem_error.
Qed.

Lemma rmap_Ok_exists {A B} (f : A → result B) (l : list A) :
  Forall (λ x, ∃ y, f x = Ok y) l → ∃ l', rmap f l = Ok l'.
Proof.
  induction 1 as [|x l [y Hy] _ [l' IH]]; simpl; [by eexists|].
  rewrite Hy, IH. simpl. by eexists.
Qed.

Lemma list_getitem_valid {A} (names : list A) f :
  (2 ≤ length names)%nat →
  f = (-2)%Z ∨ (0 ≤ f < Z.of_nat (length names))%Z →
  ∃ x, Cart.list_getitem names f = Ok x ∧
       (f = (-2)%Z → names !! (length names - 2)%nat = Some x).
Proof.
  intros Hn Hf. unfold Cart.list_getitem, Cart.index.
  destruct Hf as [->|Hf].
  - change (-2 <? 0)%Z with true. cbv iota.
    assert ((-2 + Z.of_nat (length names) <? 0)%Z = false) as ->
      by (apply Z.ltb_ge; lia).
    assert (Z.to_nat (-2 + Z.of_nat (length names)) = (length names - 2)%nat)
      as -> by lia.
    destruct (lookup_lt_is_Some_2 names (length names - 2)) as [x Hx]; [lia|].
    rewrite Hx. eauto.
  - assert ((f <? 0)%Z = false) as -> by (apply Z.ltb_ge; lia).
    assert ((f <? 0)%Z = false) as -> by (apply Z.ltb_ge; lia).
    destruct (lookup_lt_is_Some_2 names (Z.to_nat f)) as [x Hx]; [lia|].
    rewrite Hx. exists x. split; [done|]. lia.
Qed.

(** The feature of every node is looked up by name before any lineage is
    computed, also that of a leaf, which is [-2]: on a list of names that
    counts from the end. With fewer than two names the look-up raises
    [IndexError]; with two or more a leaf gets the name before the last. *)
Theorem features_of_leaves names t :
  (-2)%Z ∈ Cart.feature t →
  ((length names < 2)%nat →
   ∃ msg, Cart.features names t = Raise (IndexError msg)) ∧
  ((2 ≤ length names)%nat →
   Forall (λ f, f = (-2)%Z ∨ (0 ≤ f < Z.of_nat (length names))%Z)
          (Cart.feature t) →
   ∃ fs, Cart.features names t = Ok fs ∧
         length fs = length (Cart.feature t) ∧
         ∀ i, Cart.feature t !! i = Some (-2)%Z →
              fs !! i = names !! (length names - 2)%nat).
Proof.
  intros Hleaf. unfold Cart.features. split.
  - intros Hn. destruct (rmap _ _) as [fs|e] eqn:E.
    + exfalso. apply list_elem_of_lookup in Hleaf as [i Hi].
      destruct (rmap_lookup _ _ _ _ _ E Hi) as (y & _ & Hy).
      unfold Cart.list_getitem, Cart.index in Hy. simpl in Hy.
      destruct (_ <? 0)%Z eqn:Elt; [done|].
      apply Z.ltb_ge in Elt. lia.
    + apply features_error in E as [msg ->]. eauto.
  - intros Hn Hall.
    destruct (rmap_Ok_exists (Cart.list_getitem names) (Cart.feature t))
      as [fs Hfs].
    { eapply Forall_impl; [exact Hall|]. intros f Hf.
      destruct (list_getitem_valid names f Hn Hf) as (x & Hx & _). eauto. }
    exists fs. split; [done|]. split; [by eapply rmap_length|].
    intros i Hi. destruct (rmap_lookup _ _ _ _ _ Hfs Hi) as (y & -> & Hy).
    destruct (list_getitem_valid names (-2) Hn (or_introl eq_refl))
      as (x & Hx & Hlast).
    rewrite Hx in Hy. injection Hy as ->. symmetry. by apply Hlast.
Qed.

(** ** Errors of the samplers *)

Section SamplerErrors.
Context `{Runtime}.

Lemma sample_unknown_distribution s distribution parms size w :
  table_of s !! distribution = None →
  sample s distribution parms size w = (Raise (KeyError distribution), w).
Proof.
  intros Hd. destruct s; simpl in Hd;
    unfold sample, bind, lift, getitem; by rewrite Hd.
Qed.

(** C7, as the code has it: the samplers that draw from distributions look
    the name of each distribution up when its parameter's turn comes, in the
    order of the names. With a name that is not in the table,
    [generate_designs] raises and returns no designs; the world is the one
    left by sampling the parameters sorted before it, and the exception is
    the lookup error unless one of those raised first. *)
Theorem generate_designs_unknown_distribution s ps nr_samples pre p post w :
  sorted_by_name ps = pre ++ p :: post →
  table_of s !! dist p = None →
  generate_designs (Base s) ps nr_samples w =
  (Raise (match (generate_samples s pre nr_samples w).1 with
          | Ok _ => KeyError (dist p)
          | Raise e => e
          end),
   (generate_samples s pre nr_samples w).2).
Proof.
  intros Hs Hd. unfold generate_designs, generate_designs_base.
  rewrite Hs. unfold generate_samples at 1. unfold bind at 1 2.
  rewrite foldM_app. fold (generate_samples s pre nr_samples).
  unfold bind at 1.
  destruct (generate_samples s pre nr_samples w) as [[samples|e] w1]; [|done].
  simpl. unfold bind at 1 2.
  by rewrite (sample_unknown_distribution _ _ _ _ _ Hd).
Qed.

End SamplerErrors.

(** ** The reported number of designs *)

(** C1 says that iterating a design set yields as many designs as the set
    reports. The code breaks this for a partial factorial design in which
    every parameter is factorial: for one real factorial parameter and 3
    samples the factorial part reports 3, the empty sampled part reports 3
    too, the set reports 9, and iterating it yields no design at all. *)
Theorem partial_factorial_all_factorial_reports_9_yields_0 `{Runtime} w :
  ∃ d,
    generate_designs (PartialFactorialSampler LHSSampler)
      [Demo.real_param "a" true] 3 w = (Ok (PFD d), w) ∧
    n (ff_designs d) = 3%nat ∧ n (other_designs d) = 3%nat ∧
    reported_n (PFD d) = 9%nat ∧
    iter_designs (set_kind (PFD d) Scenario) = Ok [].
Proof.
  eexists. split; [|split; [|split; [|split]]].
  - destruct w. vm_compute. reflexivity.
  - vm_compute. reflexivity.
  - reflexivity.
  - reflexivity.
  - vm_compute. reflexivity.
Qed.

(** ** Counting designs *)

Lemma insert_by_name_perm p l : insert_by_name p l ≡ₚ p :: l.
Proof.
  induction l as [|y l IH]; simpl; [done|].
  destruct (String.leb (name p) (name y)); [done|].
  rewrite IH. apply Permutation_swap.
Qed.

(** Sorting keeps the parameters. *)
Lemma sorted_by_name_perm l : sorted_by_name l ≡ₚ l.
Proof.
  induction l as [|p l IH]; simpl; [done|].
  rewrite insert_by_name_perm. by rewrite IH.
Qed.

Lemma linspace_length start stop num : length (linspace start stop num) = num.
Proof.
  destruct num as [|[|k]]; simpl; [done|done|].
  by rewrite length_fmap, length_seq.
Qed.

(** The number of tuples [zip] makes of equally long columns. *)
Lemma zip_star_length {A} (ls : list (list A)) size :
  ls ≠ [] → Forall (λ l, length l = size) ls → length (zip_star ls) = size.
Proof.
  intros Hne Hall. destruct ls as [|l ls]; [done|].
  unfold zip_star. rewrite length_fmap, length_seq.
  apply Forall_cons in Hall as [Hl Hls]. rewrite Hl.
  clear -Hls. induction Hls as [|x ls Hx Hls IH]; [done|].
  rewrite fmap_cons. cbn [foldr]. rewrite IH, Hx. lia.
Qed.

(** The number of tuples of a Cartesian product. *)
Lemma product_star_length {A} (ls : list (list A)) :
  length (product_star ls) = foldr Nat.mul 1%nat (length <$> ls).
Proof.
  induction ls as [|l ls IH]; [done|].
  rewrite fmap_cons. cbn [foldr]. unfold product_star. cbn [foldr].
  fold (product_star ls).
  rewrite (length_bind_const _ _ (length (product_star ls))).
  - by rewrite IH.
  - intros x. by rewrite length_fmap.
Qed.

Section DesignCount.
Context `{PyRuntime}.

(** A design generator that does not raise yields one object per raw design. *)
Lemma DefaultDesigns_iter_length d objs :
  DefaultDesigns_iter d = Ok objs → length objs = length (designs d).
Proof. unfold DefaultDesigns_iter, design_generator. apply rmap_length. Qed.

(** A partial factorial design set yields the Cartesian product of what its
    two parts yield. *)
Lemma PartialFactorialDesigns_iter_length d objs :
  PartialFactorialDesigns_iter d = Ok objs →
  length objs =
    (length (designs (ff_designs d)) * length (designs (other_designs d)))%nat.
Proof.
  unfold PartialFactorialDesigns_iter. intros E.
  rbind_inv E as ff Eff. rbind_inv E as other Eo. injection E as <-.
  unfold partial_designs_generator. rewrite length_fmap.
  rewrite (length_bind_const _ _ (length other)).
  - by rewrite (DefaultDesigns_iter_length _ _ Eff),
               (DefaultDesigns_iter_length _ _ Eo).
  - intros a. by rewrite length_fmap.
Qed.

End DesignCount.

Section BaseSamplerCount.
Context `{Runtime} `{!RandomLaws}.

Lemma squeeze_values {A} (l : list A) : nd_values (squeeze l) = l.
Proof. by destruct l as [|x [|y l]]. Qed.

Lemma nd_values_fmap {A B} (f : A → B) (a : nd A) :
  nd_values (f <$> a) = f <$> nd_values a.
Proof. by destruct a. Qed.

Lemma py_iter_values {A} (a : nd A) (l : list A) :
  py_iter a = Ok l → l = nd_values a.
Proof. destruct a; simpl; [by intros [= <-]|done]. Qed.

Lemma _lhs_length dist parms siz w v w' :
  _lhs dist parms siz w = (Ok v, w') → length (nd_values v) = siz.
Proof.
  destruct (decide (siz = 0%nat)) as [->|Hn].
  { unfold _lhs, bind, lift, qdiv. simpl. discriminate. }
  rewrite _lhs_run by lia. cbv zeta.
  pose proof (linspace_length 0 (inject_Z (Z.of_nat siz - 1) / Qnat siz) siz)
    as Hlin.
  set (perc := linspace 0 (inject_Z (Z.of_nat siz - 1) / Qnat siz) siz) in *.
  pose proof (Permutation_length (shuffle_permutation perc (ext w))) as Hsh.
  destruct (call_dist dist parms) as [fz|e]; [|discriminate].
  intros E. injection E as <- _.
  rewrite nd_values_fmap, squeeze_values.
  rewrite length_fmap, length_zip_with, sample_length. lia.
Qed.

Lemma sample_length_Ok s distribution parms size w v w' :
  sample s distribution parms size w = (Ok v, w') →
  length (nd_values v) = size.
Proof.
  destruct s; unfold sample; intros E.
  - bind_inv E as d w1 E1. by eapply _lhs_length.
  - bind_inv E as d w1 E1. by eapply _lhs_length.
  - bind_inv E as d w1 E1. bind_inv E as fz w2 E2. bind_inv E as r w3 E3.
    bind_inv E as u w4 E4. injection E as <- _.
    unfold on_ext in E3. destruct (scipy_rvs fz size (ext w2)) as [r' s'] eqn:Er.
    injection E3 as <- _. simpl.
    pose proof (rvs_length fz size (ext w2)) as Hl. by rewrite Er in Hl.
Qed.

Lemma generate_samples_lengths s ps size (acc : gmap string (nd pyval)) w
    (samples : gmap string (nd pyval)) w' :
  foldM (λ samples param,
           let! v := sample s (dist param) (params param) size in
           ret (<[name param := v]> samples)) acc ps w = (Ok samples, w') →
  (∀ k v, acc !! k = Some v → length (nd_values v) = size) →
  ∀ k v, samples !! k = Some v → length (nd_values v) = size.
Proof.
  revert acc w. induction ps as [|p ps IH]; intros acc w E Hacc; simpl in E.
  - by injection E as <- _.
  - bind_inv E as acc1 w1 E1. bind_inv E1 as v1 w2 E2. injection E1 as <- <-.
    apply (IH _ _ E). intros k v. rewrite lookup_insert.
    case_decide; [|by apply Hacc].
    intros [= <-]. by eapply sample_length_Ok.
Qed.

Lemma columns_lengths (samples : gmap string (nd pyval)) ps cols its size :
  rmap (λ u, getitem samples (name u)) ps = Ok cols →
  rmap py_iter cols = Ok its →
  (∀ k v, samples !! k = Some v → length (nd_values v) = size) →
  length its = length ps ∧ Forall (λ c, length c = size) its.
Proof.
  intros E Ei Hs. split.
  { rewrite (rmap_length _ _ _ Ei). by eapply rmap_length. }
  apply Forall_lookup. intros i c Hc.
  destruct (lookup_lt_is_Some_2 cols i) as [a Ha].
  { rewrite <- (rmap_length _ _ _ Ei). by eapply lookup_lt_Some. }
  destruct (rmap_lookup _ _ _ _ _ Ei Ha) as (c' & Hc' & Hit).
  assert (c' = c) as -> by congruence.
  apply py_iter_values in Hit as ->.
  destruct (lookup_lt_is_Some_2 ps i) as [p Hp].
  { rewrite <- (rmap_length _ _ _ E). by eapply lookup_lt_Some. }
  destruct (rmap_lookup _ _ _ _ _ E Hp) as (a' & Ha' & Hg).
  assert (a' = a) as -> by congruence.
  unfold getitem in Hg. destruct (samples !! name p) eqn:Hl; [|done].
  injection Hg as ->. by eapply Hs.
Qed.

(** The samplers that draw: over a non-empty list of parameters the design
    set reports the requested number and holds, and on iteration yields,
    exactly that many designs. *)
Lemma generate_designs_base_count s ps nr_samples w d w' :
  ps ≠ [] →
  generate_designs_base s ps nr_samples w = (Ok d, w') →
  n d = nr_samples ∧ length (designs d) = nr_samples ∧
  ∀ k objs, DefaultDesigns_iter (DefaultDesigns_set_kind d k) = Ok objs →
            length objs = nr_samples.
Proof.
  intros Hne E. pose proof E as E'. unfold generate_designs_base in E.
  bind_inv E as samples w1 E1. bind_inv E as cols w2 E2.
  unfold lift in E2. injection E2 as E2 <-.
  bind_inv E as its w3 E3. unfold lift in E3. injection E3 as E3 <-.
  injection E as <- <-.
  assert (length (zip_star its) = nr_samples) as Hz.
  { destruct (columns_lengths samples _ cols its nr_samples E2 E3) as [Hlen Hall].
    - eapply generate_samples_lengths; [exact E1|]. intros k v. by rewrite lookup_empty.
    - apply zip_star_length; [|done].
      intros ->. simpl in Hlen. rewrite sorted_by_name_perm in Hlen.
      destruct ps; [done|]. simpl in Hlen. lia. }
  simpl. split; [done|]. rewrite length_fmap. split; [done|].
  intros k objs Ho. apply DefaultDesigns_iter_length in Ho.
  simpl in Ho. by rewrite length_fmap in Ho; lia.
Qed.

End BaseSamplerCount.

Lemma foldr_mul_snoc (l : list nat) (x : nat) :
  foldr Nat.mul 1%nat (l ++ [x]) = (foldr Nat.mul 1%nat l * x)%nat.
Proof. induction l as [|y l IH]; simpl; [lia|]. rewrite IH. lia. Qed.

Lemma foldr_mul_perm (l l' : list nat) :
  l ≡ₚ l' → foldr Nat.mul 1%nat l = foldr Nat.mul 1%nat l'.
Proof. induction 1; simpl; lia. Qed.

Lemma rmap_fmap_Ok {A B} (f : A → result B) (g : A → B) (l : list A) :
  (∀ x, x ∈ l → f x = Ok (g x)) → rmap f l = Ok (g <$> l).
Proof.
  induction l as [|x l IH]; intros Hf; [done|].
  cbn [rmap]. rewrite (Hf x) by left. cbn [rbind].
  rewrite IH; [done|]. intros y Hy. apply Hf. by right.
Qed.

Section FullFactorialCount.

Lemma ff_generate_samples_snoc ps p size :
  ff_generate_samples (ps ++ [p]) size =
  <[name p := ff_cats p size]> (ff_generate_samples ps size).
Proof. unfold ff_generate_samples. by rewrite foldl_snoc. Qed.

Lemma ff_generate_samples_dom ps size k :
  k ∉ (name <$> ps) → ff_generate_samples ps size !! k = None.
Proof.
  induction ps as [|p ps IH] using rev_ind; intros Hk; [done|].
  rewrite fmap_app, not_elem_of_app in Hk. destruct Hk as [Hk Hp].
  rewrite ff_generate_samples_snoc, lookup_insert_ne; [by apply IH|].
  intros <-. apply Hp. simpl. by left.
Qed.

Lemma ff_generate_samples_lookup ps size p :
  NoDup (name <$> ps) → p ∈ ps →
  ff_generate_samples ps size !! name p = Some (ff_cats p size).
Proof.
  induction ps as [|q ps IH] using rev_ind; intros ND Hp; [by inversion Hp|].
  rewrite fmap_app in ND. apply NoDup_app in ND as (ND & Hq & _).
  rewrite ff_generate_samples_snoc.
  apply elem_of_app in Hp as [Hp|Hp].
  - rewrite lookup_insert_ne; [by apply IH|].
    intros Heq. apply (Hq (name p)); [by apply list_elem_of_fmap_2|].
    rewrite <- Heq. simpl. by left.
  - apply list_elem_of_singleton in Hp as ->. apply lookup_insert_eq.
Qed.

(** Over distinct names the dict of samples has one entry per parameter, so
    the product over its values is the product over the parameters. *)
Lemma determine_nr_of_designs_product ps size :
  NoDup (name <$> ps) →
  determine_nr_of_designs (ff_generate_samples ps size) =
  nr_of_levels ps size.
Proof.
  unfold nr_of_levels.
  induction ps as [|q ps IH] using rev_ind; intros ND; [done|].
  rewrite fmap_app in ND. apply NoDup_app in ND as (ND & Hq & _).
  rewrite ff_generate_samples_snoc, fmap_app. simpl.
  rewrite foldr_mul_snoc, <- IH by done.
  unfold determine_nr_of_designs.
  rewrite (map_fold_insert_L
             (λ (_ : string) (value : list pyval) (nr_designs : nat),
                (nr_designs * length value)%nat)); [done| |].
  - intros. lia.
  - apply ff_generate_samples_dom. intros Hin. apply (Hq _ Hin). simpl. by left.
Qed.

(** The full factorial sampler: over parameters with distinct names it
    always returns a design set, which reports, and holds, the product of the
    numbers of levels of the parameters. *)
Lemma generate_designs_ff_count ps nr_samples :
  NoDup (name <$> ps) →
  ∃ d, generate_designs_ff ps nr_samples = Ok d ∧
       n d = nr_of_levels ps nr_samples ∧
       length (designs d) = n d.
Proof.
  intros ND.
  assert (NoDup (name <$> sorted_by_name ps)) as ND'.
  { by rewrite sorted_by_name_perm. }
  unfold generate_designs_ff.
  rewrite (rmap_fmap_Ok _ (λ p, ff_cats p nr_samples)).
  2:{ intros p Hp. unfold getitem.
      by rewrite (ff_generate_samples_lookup _ _ _ ND' Hp). }
  cbn [rbind]. eexists. split; [reflexivity|]. simpl.
  rewrite determine_nr_of_designs_product by done. unfold nr_of_levels.
  split.
  - apply foldr_mul_perm. by rewrite sorted_by_name_perm.
  - rewrite length_fmap, product_star_length. by rewrite <- list_fmap_compose.
Qed.

End FullFactorialCount.

Section DesignSetCount.
Context `{Runtime} `{!RandomLaws}.

(** Where the reported number of designs is right: over a non-empty list of
    parameters with distinct names, and for a partial factorial design with
    at least one parameter that is not factorial, the design set reports the
    number of samples (LHS, Monte Carlo), the product of the numbers of
    levels (full factorial), or the product of the two (partial factorial),
    and iterating it yields as many designs as it reports. *)
Theorem generate_designs_count s ps nr_samples w ds w' k objs :
  NoDup (name <$> ps) → ps ≠ [] →
  (∀ sub, s = PartialFactorialSampler sub → ∃ p, p ∈ ps ∧ pff p ≠ true) →
  generate_designs s ps nr_samples w = (Ok ds, w') →
  iter_designs (set_kind ds k) = Ok objs →
  length objs = reported_n ds ∧
  reported_n ds =
    match s with
    | Base _ => nr_samples
    | FullFactorialSampler => nr_of_levels ps nr_samples
    | PartialFactorialSampler _ =>
        (nr_samples * nr_of_levels (filter (λ p, pff p = true) ps) nr_samples)%nat
    end.
Proof.
  intros ND Hne Hpff E Hit. destruct s as [b| |sub]; simpl in E.
  - bind_inv E as d w1 E1. injection E as <- <-.
    destruct (generate_designs_base_count _ _ _ _ _ _ Hne E1) as (Hn & Hl & Hiter).
    simpl in *. split; [|done]. rewrite Hn. by eapply Hiter.
  - bind_inv E as d w1 E1. injection E as <- <-. unfold lift in E1.
    injection E1 as E1 _.
    destruct (generate_designs_ff_count ps nr_samples ND) as (d' & Hd & Hn & Hl).
    assert (d' = d) as -> by congruence.
    simpl in *. split; [|done].
    apply DefaultDesigns_iter_length in Hit. simpl in Hit. lia.
  - unfold generate_designs_pff, _sort_parameters in E.
    bind_inv E as d w1 E1. injection E as <- <-.
    bind_inv E1 as ff w2 E2. bind_inv E1 as other w3 E3. injection E1 as <- <-.
    unfold lift in E2. injection E2 as E2 <-.
    assert (NoDup (name <$> filter (λ p, pff p = true) ps)) as NDff.
    { eapply sublist_NoDup; [exact ND|apply fmap_sublist, sublist_filter]. }
    destruct (generate_designs_ff_count _ nr_samples NDff) as (d' & Hd & Hn & Hl).
    assert (d' = ff) as -> by congruence.
    assert (filter (λ p, pff p ≠ true) ps ≠ []) as Hother.
    { destruct (Hpff sub eq_refl) as (p & Hp & Hf).
      intros Hnil. by apply (filter_nil_not_elem_of _ _ p Hnil Hf). }
    destruct (generate_designs_base_count _ _ _ _ _ _ Hother E3)
      as (Hno & Hlo & _).
    simpl in *. split; [|lia].
    apply PartialFactorialDesigns_iter_length in Hit. simpl in Hit. lia.
Qed.

End DesignSetCount.

(** ** What a design assigns *)

Lemma omap_lookup_length {A} (ls : list (list A)) i :
  (∀ l, l ∈ ls → (i < length l)%nat) →
  length (omap (λ l : list A, l !! i) ls) = length ls.
Proof.
  induction ls as [|l ls IH]; intros Hi; [done|]. cbn [omap list_omap].
  destruct (lookup_lt_is_Some_2 l i) as [x Hx]; [apply Hi; by left|].
  rewrite Hx. simpl. f_equal. apply IH. intros l' Hl'. apply Hi. by right.
Qed.

Lemma foldr_min_le (l : list nat) (a x : nat) :
  x ∈ a :: l → (foldr Nat.min a l ≤ x)%nat.
Proof.
  induction l as [|y l IH]; intros Hx.
  - apply list_elem_of_singleton in Hx as ->. done.
  - cbn [foldr]. apply elem_of_cons in Hx as [->|Hx].
    + etrans; [apply Nat.le_min_r|]. apply IH. by left.
    + apply elem_of_cons in Hx as [->|Hx]; [apply Nat.le_min_l|].
      etrans; [apply Nat.le_min_r|]. apply IH. by right.
Qed.

(** Every tuple [zip] makes has one entry per column. *)
Lemma zip_star_tuple_length {A} (ls : list (list A)) t :
  t ∈ zip_star ls → length t = length ls.
Proof.
  destruct ls as [|l ls]; [by intros ?%elem_of_nil|].
  unfold zip_star.
  intros (i & -> & Hi)%list_elem_of_fmap. apply elem_of_seq in Hi.
  apply omap_lookup_length. intros l' Hl'.
  eapply Nat.lt_le_trans; [apply Hi|]. simpl.
  apply foldr_min_le. rewrite <- fmap_cons. by apply list_elem_of_fmap_2.
Qed.

Lemma product_star_tuple_length {A} (ls : list (list A)) t :
  t ∈ product_star ls → length t = length ls.
Proof.
  revert t. induction ls as [|l ls IH]; intros t.
  - intros ->%list_elem_of_singleton. done.
  - unfold product_star. cbn [foldr]. fold (product_star ls).
    intros (x & Ht & Hx)%list_elem_of_bind.
    apply list_elem_of_fmap in Ht as (t' & -> & Ht').
    simpl. f_equal. by apply IH.
Qed.

Section DesignKeys.
Context `{PyRuntime}.



End DesignKeys.


Section GeneratedDesigns.
Context `{Runtime}.

(** The designs of the drawing samplers are rows over the sorted parameters. *)
Lemma generate_designs_base_rows s ps nr_samples w d w' :
  generate_designs_base s ps nr_samples w = (Ok d, w') →
  parameters d = sorted_by_name ps ∧ kind d = None ∧
  ∀ design, design ∈ designs d → length design = length (parameters d).
Proof.
  unfold generate_designs_base. intros E.
  bind_inv E as samples w1 E1. bind_inv E as cols w2 E2.
  unfold lift in E2. injection E2 as E2 <-.
  bind_inv E as its w3 E3. unfold lift in E3. injection E3 as E3 <-.
  injection E as <- <-. simpl.
  split; [done|]. split; [done|].
  intros design (t & -> & Ht)%list_elem_of_fmap.
  rewrite length_fmap, (zip_star_tuple_length _ _ Ht).
  rewrite (rmap_length _ _ _ E3). by eapply rmap_length.
Qed.

(** So are the designs of the full factorial sampler. *)
Lemma generate_designs_ff_rows ps nr_samples d :
  generate_designs_ff ps nr_samples = Ok d →
  parameters d = sorted_by_name ps ∧ kind d = None ∧
  ∀ design, design ∈ designs d → length design = length (parameters d).
Proof.
  unfold generate_designs_ff. intros E. rbind_inv E as cols Ec.
  injection E as <-. simpl. split; [done|]. split; [done|].
  intros design (t & -> & Ht)%list_elem_of_fmap.
  rewrite length_fmap, (product_star_tuple_length _ _ Ht). by eapply rmap_length.
Qed.

Lemma generate_designs_pff_parts sub ps nr_samples w d w' :
  generate_designs_pff sub ps nr_samples w = (Ok d, w') →
  ∃ w1,
    generate_designs_ff (filter (λ p, pff p = true) ps) nr_samples
      = Ok (ff_designs d) ∧
    generate_designs_base sub (filter (λ p, pff p ≠ true) ps) nr_samples w
      = (Ok (other_designs d), w1) ∧
    w' = w1 ∧ pf_parameters d = ps ∧ pf_kind d = None ∧
    pf_n d = (n (other_designs d) * n (ff_designs d))%nat.
Proof.
  unfold generate_designs_pff, _sort_parameters. intros E.
  bind_inv E as ff w2 E2. bind_inv E as other w3 E3. injection E as <- <-.
  unfold lift in E2. injection E2 as E2 <-. simpl. eauto 10.
Qed.






Lemma design_generator_kind `{PyRuntime} designs ps kd objs :
  design_generator designs ps kd = Ok objs →
  match kd with
  | Some k => ∀ o, o ∈ objs → nd_kind o = k
  | None => objs = []
  end.
Proof.
  unfold design_generator. revert objs.
  induction designs as [|design designs IH]; intros objs E; simpl in E.
  - injection E as <-. destruct kd; [|done]. by intros o ?%elem_of_nil.
  - rbind_inv E as o1 E1. rbind_inv E as os Eos. injection E as <-.
    rbind_inv E1 as d Ed. unfold call_kind in E1.
    destruct kd as [k|]; [|done]. injection E1 as <-.
    intros o [->|Ho]%elem_of_cons; [done|]. by apply (IH _ Eos).
Qed.

(** The objects a generated design set yields are of the kind that was set on
    it; and as long as no kind is set, iterating it yields no object at all:
    it raises, unless the set is empty. *)
Theorem generated_designs_kind s ps nr_samples w ds w' :
  generate_designs s ps nr_samples w = (Ok ds, w') →
  (∀ k objs o,
     iter_designs (set_kind ds k) = Ok objs → o ∈ objs → nd_kind o = k) ∧
  (∀ objs, iter_designs ds = Ok objs → objs = []).
Proof.
  intros E. split.
  - intros k objs o Hit Ho. destruct ds as [d|d]; simpl in Hit.
    + unfold DefaultDesigns_iter in Hit. simpl in Hit.
      by apply (design_generator_kind _ _ _ _ Hit).
    + unfold PartialFactorialDesigns_iter in Hit. simpl in Hit.
      rbind_inv Hit as ffo Ef. rbind_inv Hit as oo Eoo. injection Hit as <-.
      unfold partial_designs_generator in Ho.
      apply list_elem_of_fmap in Ho as ([a b] & -> & Hab).
      apply list_elem_of_bind in Hab as (a' & Hab & Ha).
      apply list_elem_of_fmap in Hab as (b' & [= -> ->] & Hb).
      simpl. unfold DefaultDesigns_iter in Ef. simpl in Ef.
      by apply (design_generator_kind _ _ _ _ Ef).
  - intros objs Hit. destruct s as [b| |sub]; simpl in E.
    + bind_inv E as d w1 E1. injection E as <- <-.
      destruct (generate_designs_base_rows _ _ _ _ _ _ E1) as (_ & Hk & _).
      simpl in Hit. unfold DefaultDesigns_iter in Hit. rewrite Hk in Hit.
      by apply (design_generator_kind _ _ _ _ Hit).
    + bind_inv E as d w1 E1. injection E as <- <-. unfold lift in E1.
      injection E1 as E1 _.
      destruct (generate_designs_ff_rows _ _ _ E1) as (_ & Hk & _).
      simpl in Hit. unfold DefaultDesigns_iter in Hit. rewrite Hk in Hit.
      by apply (design_generator_kind _ _ _ _ Hit).
    + bind_inv E as d w1 E1. injection E as <- <-.
      destruct (generate_designs_pff_parts _ _ _ _ _ _ E1)
        as (w2 & Eff & Eo & _ & _ & _ & _).
      destruct (generate_designs_ff_rows _ _ _ Eff) as (_ & Hk & _).
      simpl in Hit. unfold PartialFactorialDesigns_iter in Hit.
      rbind_inv Hit as ffo Ef. rbind_inv Hit as oo Eoo. injection Hit as <-.
      unfold DefaultDesigns_iter in Ef. rewrite Hk in Ef.
      by rewrite (design_generator_kind _ _ _ _ Ef).
Qed.

End GeneratedDesigns.

(** ** What the design generator stores *)


(** ** The order of the parameters *)

Lemma ascii_compare_lt_trans (a b c : Ascii.ascii) :
  Ascii.compare a b = Lt → Ascii.compare b c = Lt → Ascii.compare a c = Lt.
Proof.
  unfold Ascii.compare. rewrite !N.compare_lt_iff. apply N.lt_trans.
Qed.

Lemma string_compare_lt_trans (s t u : string) :
  String.compare s t = Lt → String.compare t u = Lt → String.compare s u = Lt.
Proof.
  revert t u. induction s as [|a s IH]; intros [|b t] [|c u]; simpl; try done.
  destruct (Ascii.compare a b) eqn:Eab; try done;
    destruct (Ascii.compare b c) eqn:Ebc; try done.
  - apply Ascii.compare_eq_iff in Eab as ->. rewrite Ebc. apply IH.
  - apply Ascii.compare_eq_iff in Eab as ->. by rewrite Ebc.
  - apply Ascii.compare_eq_iff in Ebc as <-. by rewrite Eab.
  - by rewrite (ascii_compare_lt_trans _ _ _ Eab Ebc).
Qed.

Lemma string_leb_trans (s t u : string) :
  String.leb s t = true → String.leb t u = true → String.leb s u = true.
Proof.
  unfold String.leb.
  destruct (String.compare s t) eqn:Est; try done;
    destruct (String.compare t u) eqn:Etu; try done; intros _ _.
  - apply String.compare_eq_iff in Est as ->. by rewrite Etu.
  - apply String.compare_eq_iff in Est as ->. by rewrite Etu.
  - apply String.compare_eq_iff in Etu as <-. by rewrite Est.
  - by rewrite (string_compare_lt_trans _ _ _ Est Etu).
Qed.

Lemma insert_by_name_sorted p l :
  StronglySorted name_le l → StronglySorted name_le (insert_by_name p l).
Proof.
  induction 1 as [|y l Hl IH Hy]; simpl.
  - repeat constructor.
  - destruct (String.leb (name p) (name y)) eqn:Hpy.
    + constructor; [by constructor|]. constructor; [done|].
      eapply Forall_impl; [exact Hy|]. intros z Hz. unfold name_le in *.
      by eapply string_leb_trans.
    + constructor; [done|].
      rewrite insert_by_name_perm. constructor; [|done].
      unfold name_le. destruct (String.leb_total (name p) (name y)); congruence.
Qed.

Lemma sorted_by_name_sorted l : StronglySorted name_le (sorted_by_name l).
Proof.
  induction l as [|p l IH]; simpl; [constructor|].
  by apply insert_by_name_sorted.
Qed.

(** With distinct names the sorted list does not depend on the order of the
    input. *)
Lemma sorted_by_name_order_independent ps ps' :
  NoDup (name <$> ps) → ps ≡ₚ ps' → sorted_by_name ps = sorted_by_name ps'.
Proof.
  intros ND Hperm.
  apply (StronglySorted_unique_strong name_le);
    [|apply sorted_by_name_sorted..|by rewrite !sorted_by_name_perm].
  intros p q Hp Hq Hpq Hqp. rewrite sorted_by_name_perm in Hp.
  rewrite sorted_by_name_perm, <- Hperm in Hq.
  pose proof (String.leb_antisym _ _ Hpq Hqp) as Hn.
  apply list_elem_of_lookup in Hp as [i Hi]. apply list_elem_of_lookup in Hq as [j Hj].
  assert (i = j) as ->; [|congruence].
  eapply (NoDup_lookup _ _ _ (name p) ND); rewrite list_lookup_fmap.
  - by rewrite Hi.
  - by rewrite Hj, Hn.
Qed.

(** The drawing samplers and the full factorial sampler sort the parameters
    by name before anything else: the design set lists them in name order,
    and with distinct names the whole outcome (designs, draws, errors) is the
    same for any order in which the parameters are passed. *)
Theorem generate_designs_order_independent `{Runtime} s ps nr_samples w :
  (∀ sub, s ≠ PartialFactorialSampler sub) →
  (∀ d w', generate_designs s ps nr_samples w = (Ok (DD d), w') →
           StronglySorted name_le (parameters d) ∧ parameters d ≡ₚ ps) ∧
  (∀ ps', NoDup (name <$> ps) → ps ≡ₚ ps' →
          generate_designs s ps nr_samples w
          = generate_designs s ps' nr_samples w).
Proof.
  intros Hs. split.
  - intros d w' E. destruct s as [b| |sub]; simpl in E.
    + bind_inv E as d1 w1 E1. injection E as <- <-.
      destruct (generate_designs_base_rows _ _ _ _ _ _ E1) as (-> & _ & _).
      split; [apply sorted_by_name_sorted|apply sorted_by_name_perm].
    + bind_inv E as d1 w1 E1. injection E as <- <-. unfold lift in E1.
      injection E1 as E1 _.
      destruct (generate_designs_ff_rows _ _ _ E1) as (-> & _ & _).
      split; [apply sorted_by_name_sorted|apply sorted_by_name_perm].
    + by destruct (Hs sub).
  - intros ps' ND Hperm.
    pose proof (sorted_by_name_order_independent _ _ ND Hperm) as Hsort.
    destruct s as [b| |sub]; simpl.
    + unfold generate_designs_base. by rewrite Hsort.
    + unfold generate_designs_ff. by rewrite Hsort.
    + by destruct (Hs sub).
Qed.

(** ** The full factorial designs *)

(** The tuples of a Cartesian product pick one entry of each list. *)
Lemma elem_of_product_star {A} (ls : list (list A)) t :
  t ∈ product_star ls ↔ Forall2 (λ x l, x ∈ l) t ls.
Proof.
  revert t. induction ls as [|l ls IH]; intros t.
  - unfold product_star. simpl. rewrite list_elem_of_singleton. split.
    + by intros ->.
    + by intros ->%Forall2_nil_inv_r.
  - unfold product_star. cbn [foldr]. fold (product_star ls).
    rewrite list_elem_of_bind. split.
    + intros (x & Ht & Hx). apply list_elem_of_fmap in Ht as (t' & -> & Ht').
      constructor; [done|]. by apply IH.
    + intros (x & t' & Hx & Ht' & ->)%Forall2_cons_inv_r.
      exists x. split; [|done]. apply list_elem_of_fmap. exists t'.
      split; [done|]. by apply IH.
Qed.

(** No tuple comes twice when no list has an entry twice. *)
Lemma NoDup_product_star {A} (ls : list (list A)) :
  Forall NoDup ls → NoDup (product_star ls).
Proof.
  induction 1 as [|l ls Hl Hls IH].
  - apply NoDup_singleton.
  - unfold product_star. cbn [foldr]. fold (product_star ls).
    apply NoDup_bind; [| |done].
    + intros x1 x2 t _ _ (t1 & -> & _)%list_elem_of_fmap
        (t2 & [= -> _] & _)%list_elem_of_fmap. done.
    + intros x _. apply NoDup_fmap_2; [|done]. by intros ?? [= ->].
Qed.

Global Instance RVal_inj : Inj (=) (=) RVal.
Proof. by intros ?? [= ->]. Qed.

(** The full factorial sampler never raises and holds exactly the
    combinations of one level per parameter, in the order of the names: a
    row is a design of the set if and only if it picks, for each parameter
    in turn, one of its levels; and while the levels of each parameter are
    distinct no design comes twice. *)
Theorem full_factorial_designs_are_the_combinations ps nr_samples :
  NoDup (name <$> ps) →
  ∃ d,
    generate_designs_ff ps nr_samples = Ok d ∧
    (∀ design,
       design ∈ designs d ↔
       ∃ t, design = RVal <$> t ∧
            Forall2 (λ x p, x ∈ ff_cats p nr_samples) t (sorted_by_name ps)) ∧
    ((∀ p, p ∈ ps → NoDup (ff_cats p nr_samples)) → NoDup (designs d)).
Proof.
  intros ND.
  assert (NoDup (name <$> sorted_by_name ps)) as ND'.
  { by rewrite sorted_by_name_perm. }
  unfold generate_designs_ff.
  rewrite (rmap_fmap_Ok _ (λ p, ff_cats p nr_samples)).
  2:{ intros p Hp. unfold getitem.
      by rewrite (ff_generate_samples_lookup _ _ _ ND' Hp). }
  cbn [rbind]. eexists. split; [reflexivity|]. simpl. split.
  - intros design. rewrite list_elem_of_fmap.
    setoid_rewrite elem_of_product_star. setoid_rewrite Forall2_fmap_r. done.
  - intros Hnd. apply NoDup_fmap_2; [apply _|].
    apply NoDup_product_star, Forall_fmap, Forall_forall.
    intros p Hp. apply Hnd. by rewrite <- (sorted_by_name_perm ps).
Qed.

(** ** The uniform-only Latin Hypercube sampler *)

Section UniformOnly.
Context `{Runtime}.

Lemma last_two_app {A} (l : list A) x y : last_two (l ++ [x; y]) = [x; y].
Proof.
  unfold last_two. rewrite length_app. simpl.
  replace (length l + 2 - 2)%nat with (length l) by lia.
  by rewrite drop_app_length.
Qed.

Lemma getitem_uniform : getitem distributions "uniform" = Ok stats_uniform.
Proof. reflexivity. Qed.

Lemma sample_uniform_raises parms siz w e w' :
  sample LHSSampler "uniform" parms siz w = (Raise e, w') →
  siz = 0%nat ∧ e = ZeroDivisionError ∧ w' = w.
Proof.
  unfold sample, bind at 1, lift at 1. rewrite getitem_uniform.
  destruct siz as [|siz].
  - intros E. by injection E as <- <-.
  - rewrite _lhs_run by lia. cbv zeta. simpl call_dist. discriminate.
Qed.

(** The uniform-only sampler reads a uniform, triangular or PERT
    distribution as the uniform distribution given by its last two
    parameters, the lower bound and the width: whatever parameters come
    before them, it does what the Latin Hypercube sampler does for that
    uniform distribution. So the assertions of the PERT distribution are
    never reached, and nothing but a sample size of zero makes it raise. *)
Theorem uniform_lhs_ignores_shape distribution shape loc scale siz w :
  distribution ∈ ["uniform"; "triangular"; "triangle"; "triang"; "pert"] →
  sample UniformLHSSampler distribution (shape ++ [loc; scale]) siz w
  = sample LHSSampler "uniform" [loc; scale] siz w ∧
  (∀ e w',
     sample UniformLHSSampler distribution (shape ++ [loc; scale]) siz w
     = (Raise e, w') →
     siz = 0%nat ∧ e = ZeroDivisionError ∧ w' = w).
Proof.
  intros Hd.
  assert (getitem uniform_distributions distribution = Ok stats_uniform) as Hg.
  { repeat (apply elem_of_cons in Hd as [->|Hd]; [reflexivity|]).
    by apply elem_of_nil in Hd. }
  assert (sample UniformLHSSampler distribution (shape ++ [loc; scale]) siz w
          = sample LHSSampler "uniform" [loc; scale] siz w) as E.
  { unfold sample, bind, lift. by rewrite Hg, last_two_app. }
  split; [exact E|]. rewrite E. apply sample_uniform_raises.
Qed.

End UniformOnly.

(** ** Distributions that cannot be built, and samples of size zero or one *)

Section DistributionErrors.
Context `{Runtime} `{!RandomLaws}.

(** When the distribution cannot be built from the parameters, the Monte
    Carlo sampler raises before anything is drawn, the Latin Hypercube
    sampler only after it has shuffled the strata and drawn from the random
    generator. *)
Theorem invalid_distribution_arguments distribution dist parms size e w :
  distributions !! distribution = Some dist →
  call_dist dist parms = Raise e →
  (1 ≤ size)%nat →
  sample MonteCarloSampler distribution parms size w = (Raise e, w) ∧
  ∃ w', sample LHSSampler distribution parms size w = (Raise e, w') ∧
        cwd w' = cwd w ∧
        trace w' = trace w ++ [EvRandom "shuffle" size; EvRandom "rvs" size].
Proof.
  intros Hd He Hn. split.
  - unfold sample, bind, lift, getitem. by rewrite Hd, He.
  - unfold sample, bind, lift, getitem. rewrite Hd.
    rewrite _lhs_run by done. cbv zeta. rewrite He.
    eexists. split; [reflexivity|]. simpl. split; [done|].
    pose proof (shuffle_permutation
                  (linspace 0 (inject_Z (Z.of_nat size - 1) / Qnat size) size)
                  (ext w)) as Hperm.
    apply Permutation_length in Hperm. rewrite linspace_length in Hperm.
    by rewrite Hperm.
Qed.

End DistributionErrors.

Section ZeroSamples.
Context `{Runtime}.

Lemma _lhs_zero dist parms w : _lhs dist parms 0 w = (Raise ZeroDivisionError, w).
Proof. reflexivity. Qed.

Lemma sample_lhs_zero s distribution parms w :
  s ≠ MonteCarloSampler → is_Some (table_of s !! distribution) →
  sample s distribution parms 0 w = (Raise ZeroDivisionError, w).
Proof.
  intros Hs [d Hd]. destruct s; [| |done]; simpl in Hd;
    unfold sample, bind, lift, getitem; by rewrite Hd.
Qed.

(** Asking a Latin Hypercube sampler for designs of zero samples divides by
    zero, before anything is drawn: it does not give an empty design set. *)
Theorem latin_hypercube_of_zero_samples s ps w :
  s ≠ MonteCarloSampler → ps ≠ [] →
  (∀ p, p ∈ ps → is_Some (table_of s !! dist p)) →
  generate_designs (Base s) ps 0 w = (Raise ZeroDivisionError, w).
Proof.
  intros Hs Hne Hknown.
  unfold generate_designs, generate_designs_base, generate_samples.
  pose proof (sorted_by_name_perm ps) as Hperm.
  destruct (sorted_by_name ps) as [|p sorted] eqn:E.
  { apply Permutation_nil_l in Hperm. done. }
  assert (p ∈ ps) as Hin by (rewrite <- Hperm; left).
  unfold bind at 1 2. simpl foldM. unfold bind at 1 2.
  by rewrite (sample_lhs_zero s _ _ w Hs (Hknown p Hin)).
Qed.

End ZeroSamples.

Section OneSample.
Context `{Runtime} `{!RandomLaws}.

(** One Latin Hypercube sample is a scalar: [rvs()] drops the dimension of
    the one stratum. *)
Lemma _lhs_one dist parms v w :
  call_dist dist parms = Ok v →
  ∃ x w', _lhs dist parms 1 w = (Ok (NdScalar x), w') ∧
          cwd w' = cwd w ∧
          trace w' = trace w ++ [EvRandom "shuffle" 1; EvRandom "rvs" 1].
Proof.
  intros Hv. rewrite _lhs_run by lia. cbv zeta. rewrite Hv.
  pose proof (Permutation_length
                (shuffle_permutation
                   (linspace 0 (inject_Z (Z.of_nat 1 - 1) / Qnat 1) 1) (ext w)))
    as Hsh.
  rewrite linspace_length in Hsh.
  set (sh := np_random_shuffle _ (ext w)) in *.
  pose proof (sample_length (length sh.1) sh.2) as Hdr.
  set (dr := np_random_sample (length sh.1) sh.2) in *.
  destruct sh.1 as [|p [|p' l]] eqn:Es; simpl in Hsh; try lia.
  destruct dr.1 as [|u [|u' l]] eqn:Ed; simpl in Hdr; try lia.
  simpl. eexists _, _. split; [reflexivity|]. done.
Qed.

(** The parameters a sampler passes to the distribution. *)
Lemma sample_lhs_one s distribution parms d v w :
  s ≠ MonteCarloSampler →
  table_of s !! distribution = Some d →
  call_dist d (match s with
               | UniformLHSSampler => last_two parms
               | _ => parms
               end) = Ok v →
  ∃ x w', sample s distribution parms 1 w = (Ok (NdScalar x), w') ∧
          cwd w' = cwd w ∧
          trace w' = trace w ++ [EvRandom "shuffle" 1; EvRandom "rvs" 1].
Proof.
  intros Hs Hd Hv. destruct s; [| |done]; simpl in Hd;
    unfold sample, bind at 1, lift at 1, getitem; rewrite Hd;
    by apply (_lhs_one _ _ v).
Qed.

Lemma generate_samples_one s ps (acc : gmap string (nd pyval)) w :
  s ≠ MonteCarloSampler →
  (∀ p, p ∈ ps →
        ∃ d v, table_of s !! dist p = Some d ∧
               call_dist d (match s with
                            | UniformLHSSampler => last_two (params p)
                            | _ => params p
                            end) = Ok v) →
  (∀ k a, acc !! k = Some a → ∃ x, a = NdScalar x) →
  ∃ samples w',
    foldM (λ samples param,
             let! v := sample s (dist param) (params param) 1 in
             ret (<[name param := v]> samples)) acc ps w = (Ok samples, w') ∧
    (∀ k a, samples !! k = Some a → ∃ x, a = NdScalar x) ∧
    (∀ k, is_Some (acc !! k) ∨ k ∈ (name <$> ps) → is_Some (samples !! k)) ∧
    cwd w' = cwd w ∧
    trace w' = trace w ++ concat (replicate (length ps)
                                    [EvRandom "shuffle" 1; EvRandom "rvs" 1]).
Proof.
  intros Hs. revert acc w. induction ps as [|p ps IH]; intros acc w Hok Hacc.
  - exists acc, w. simpl. rewrite app_nil_r.
    split; [done|]. split; [done|]. split; [|done].
    intros k [Hk|Hk]; [done|]. by apply elem_of_nil in Hk.
  - destruct (Hok p) as (d & v & Hd & Hv); [by left|].
    destruct (sample_lhs_one s (dist p) (params p) d v w Hs Hd Hv)
      as (x & w1 & E1 & Hc1 & Ht1).
    destruct (IH (<[name p := NdScalar x]> acc) w1) as
      (samples & w' & E & Hsc & Hdom & Hc & Ht).
    { intros q Hq. apply Hok. by right. }
    { intros k a. rewrite lookup_insert. case_decide; [|by apply Hacc].
      intros [= <-]. eauto. }
    exists samples, w'. split; [|split; [done|split; [|split]]].
    + simpl. unfold bind at 1. unfold bind at 1. rewrite E1. exact E.
    + intros k [Hk|Hk].
      * apply Hdom. left. rewrite lookup_insert. by case_decide.
      * rewrite fmap_cons in Hk. apply elem_of_cons in Hk as [->|Hk].
        -- apply Hdom. left. rewrite lookup_insert.
           case_decide; [done|congruence].
        -- apply Hdom. by right.
    + congruence.
    + rewrite Ht, Ht1. simpl. by rewrite <- app_assoc.
Qed.

Lemma rmap_getitem_Ok {V} (samples : gmap string V) (l : list Param) :
  (∀ p, p ∈ l → is_Some (samples !! name p)) →
  ∃ cols, rmap (λ u, getitem samples (name u)) l = Ok cols.
Proof.
  induction l as [|p l IH]; intros Hl; simpl; [by eexists|].
  destruct (Hl p) as [a Ha]; [by left|].
  destruct IH as [cols Hcols]; [intros q Hq; apply Hl; by right|].
  unfold getitem at 1. rewrite Ha. simpl. rewrite Hcols. simpl. by eexists.
Qed.

(** Asking a Latin Hypercube sampler for designs of one sample fails too:
    every parameter is sampled, each sample comes back as a scalar, and
    [zip] cannot iterate over a scalar. *)
Theorem latin_hypercube_of_one_sample s ps w :
  s ≠ MonteCarloSampler → ps ≠ [] →
  (∀ p, p ∈ ps →
        ∃ d v, table_of s !! dist p = Some d ∧
               call_dist d (match s with
                            | UniformLHSSampler => last_two (params p)
                            | _ => params p
                            end) = Ok v) →
  ∃ w',
    generate_designs (Base s) ps 1 w
    = (Raise (TypeError "'numpy.float64' object is not iterable"), w') ∧
    cwd w' = cwd w ∧
    trace w' = trace w ++ concat (replicate (length ps)
                                    [EvRandom "shuffle" 1; EvRandom "rvs" 1]).
Proof.
  intros Hs Hne Hok.
  pose proof (sorted_by_name_perm ps) as Hperm.
  destruct (generate_samples_one s (sorted_by_name ps) ∅ w Hs)
    as (samples & w' & E & Hsc & Hdom & Hc & Ht).
  { intros p Hp. apply Hok. by rewrite <- Hperm. }
  { intros k a. by rewrite lookup_empty. }
  exists w'. split; [|split; [done|]].
  - unfold generate_designs, generate_designs_base, generate_samples.
    unfold bind at 1. unfold bind at 1. rewrite E.
    unfold bind at 1, lift at 1.
    destruct (rmap_getitem_Ok samples (sorted_by_name ps)) as [cols Ecols].
    { intros p Hp. apply Hdom. right. by apply list_elem_of_fmap_2. }
    rewrite Ecols.
    unfold bind at 1, lift at 1.
    destruct (sorted_by_name ps) as [|p sorted] eqn:Es.
    { apply Permutation_nil_l in Hperm. done. }
    simpl in Ecols. rbind_inv Ecols as c Ec. rbind_inv Ecols as cs Ecs.
    injection Ecols as <-.
    unfold getitem in Ec. destruct (samples !! name p) as [a|] eqn:Ha; [|done].
    injection Ec as <-. destruct (Hsc _ _ Ha) as [x ->]. reflexivity.
  - by rewrite Ht, Hperm.
Qed.

End OneSample.

(** ** Sampling uncertainties and levers together *)

Section SampleParametersFacts.
Context `{Collaborators}.



End SampleParametersFacts.

(** ** The samplers over binary64 *)

Section Binary64.
Import B64.
Local Open Scope float_scope.

Lemma truediv_Ok x y z :
  truediv x y = Ok z → (y =? 0) = false ∧ z = x / y.
Proof.
  unfold truediv. destruct (y =? 0); [discriminate|].
  intros [= <-]. done.
Qed.

Lemma beta_Ok alpha beta low high f :
  B64._beta alpha beta low high = Ok f →
  (0 <? alpha) = true ∧ (0 <? beta) = true ∧ (low <? high) = true ∧
  f = {| fz_dist := scipy_beta; fz_args := [alpha; beta; low; high - low] |}.
Proof.
  unfold B64._beta.
  destruct (0 <? alpha); [|discriminate].
  destruct (0 <? beta); [|discriminate].
  destruct (low <? high); [|discriminate].
  simpl. intros [= <-]. done.
Qed.

(** What [_pert] computes on floats. Whenever it returns, the result
    is a Beta distribution on [[low, high]] whose two shape parameters are
    positive, with [low <= peak <= high], [low < high] and [gamma >= 0], and
    both shapes are 3 when the mean [mu] it computes equals the peak. With
    the peak at the midpoint that is the case for 0, 0.5, 1; but for 0, 0.1,
    0.2 the mean is rounded away from the peak, both shapes come out as
    [-0.0], and the assertion of [_beta] fails; and for the degenerate
    0.1, 0.1, 0.1 the second division divides by zero. *)
Theorem _pert_shape :
  (∀ low peak high gamma f,
     B64._pert low peak high gamma = Ok f →
     ∃ a1 a2,
       f = {| fz_dist := scipy_beta; fz_args := [a1; a2; low; high - low] |} ∧
       (0 <? a1) = true ∧ (0 <? a2) = true ∧
       (low <=? peak) = true ∧ (peak <=? high) = true ∧
       (low <? high) = true ∧ (0 <=? gamma) = true ∧
       (((low + gamma * peak + high) / (gamma + 2) =? peak) = true →
        a1 = 3 ∧ a2 = 3)) ∧
  B64._pert 0 0.5 1 4
  = Ok {| fz_dist := scipy_beta; fz_args := [3; 3; 0; 1] |} ∧
  B64._pert 0 0x1.999999999999ap-4 0x1.999999999999ap-3 4
  = Raise (AssertionError
             "Beta alpha and beta parameters must be greater than zero") ∧
  B64._pert 0x1.999999999999ap-4 0x1.999999999999ap-4 0x1.999999999999ap-4 4
  = Raise ZeroDivisionError.
Proof.
  split; [|by vm_compute].
  intros low peak high gamma f. unfold B64._pert.
  destruct (low <=? peak) eqn:Hab; [|discriminate].
  destruct (peak <=? high) eqn:Hbc; [|discriminate].
  destruct (0 <=? gamma) eqn:Hg; [|discriminate].
  simpl.
  destruct (truediv (low + gamma * peak + high) (gamma + 2))
    as [mu|] eqn:Emu; [|discriminate].
  apply truediv_Ok in Emu as [_ ->]. simpl.
  destruct ((low + gamma * peak + high) / (gamma + 2) =? peak) eqn:Eq.
  - intros (H1 & H2 & H3 & ->)%beta_Ok. by exists 3, 3.
  - destruct (truediv _ _) as [a1|]; [|discriminate]. simpl.
    destruct (truediv _ _) as [a2|]; [|discriminate]. simpl.
    intros (H1 & H2 & H3 & ->)%beta_Ok. by exists a1, a2.
Qed.

Lemma lookup_list_2 {A} (l : list A) k x :
  length l = 2%nat → l !! k = Some x →
  ∃ a b, l = [a; b] ∧ ((k = 0%nat ∧ a = x) ∨ (k = 1%nat ∧ b = x)).
Proof.
  destruct l as [|a [|b [|]]]; try done. intros _.
  destruct k as [|[|]]; simpl; intros [= <-]; exists a, b; auto.
Qed.

(** With two samples the strata start at 0 and 0.5 and are 0.5 wide. *)
Lemma _lhs_of_two {state : Type}
    (np_random_shuffle : list float → state → list float * state)
    (np_random_sample : nat → state → list float * state)
    dist parms (st : state) :
  B64._lhs np_random_shuffle np_random_sample dist parms 2 st
  = let (perc, st) := np_random_shuffle [0; 0.5] st in
    let (smp, st) := uniform_rvs np_random_sample perc 0.5 st in
    match dist parms with
    | Raise e => (Raise e, st)
    | Ok ppf => (Ok (ppf <$> smp), st)
    end.
Proof. reflexivity. Qed.

(** C6: a Latin Hypercube sample of size 2 of the uniform distribution on
    [[0, 1)] need not have a sample in each stratum. Whatever the generator,
    when the draw that goes with the stratum starting at 0.5 is 1 - 2^-53
    (the largest number below 1), that sample is rounded to 1.0, which is in
    neither of the strata [[0, 1/2)] and [[1/2, 1)]. *)
Theorem lhs_uniform_sample_outside_every_stratum {state : Type}
    (np_random_shuffle : list float → state → list float * state)
    (np_random_sample : nat → state → list float * state)
    (st st1 st2 : state) (perc us : list float) (k : nat) :
  np_random_shuffle [0; 0.5] st = (perc, st1) →
  perc ≡ₚ [0; 0.5] →
  np_random_sample 2%nat st1 = (us, st2) →
  length us = 2%nat →
  perc !! k = Some 0.5 →
  us !! k = Some (1 - 0x1p-53) →
  ∃ v, B64._lhs np_random_shuffle np_random_sample stats_uniform [0; 1] 2%nat st
       = (Ok (NdArray v), st2) ∧
       length v = 2%nat ∧
       v !! k = Some 1 ∧
       (∀ i, (i < 2)%nat → in_stratum 2%nat i 1 = false).
Proof.
  intros Hsh Hperm Hsm Hlen Hp Hu.
  assert (length perc = 2%nat) as Hlp by (by rewrite Hperm).
  rewrite _lhs_of_two, Hsh.
  unfold uniform_rvs. rewrite Hlp, Hsm.
  destruct (lookup_list_2 _ _ _ Hlp Hp) as (p0 & p1 & -> & Hk).
  destruct (lookup_list_2 _ _ _ Hlen Hu) as (u0 & u1 & -> & Hk').
  simpl. eexists. split; [reflexivity|]. split; [reflexivity|]. split.
  - destruct Hk as [[-> ->]|[-> ->]], Hk' as [[? ->]|[? ->]]; try done.
  - intros [|[|i]] Hi; [by vm_compute..|lia].
Qed.

End Binary64.

(** ** The theorems on concrete inputs *)

#[local] Existing Instance Demo.runtime.
#[local] Existing Instance Demo.collaborators.

Lemma Demo_laws : @RandomLaws Demo.runtime.
Proof.
  split; simpl.
  - intros l s. symmetry. apply Permutation_rev.
  - intros size s. apply length_replicate.
  - intros size s. apply Forall_forall. intros u Hu%elem_of_replicate.
    destruct Hu as [-> _]. split; [discriminate | reflexivity].
  - intros f size s. apply length_replicate.
Qed.



(** A boolean parameter that draws 1 gets the integer 1, not [True]. *)
Example design_generator_boolean_example :
  stored (design_generator
            [[RVal (VInt 4); RVal (VInt 1)]]
            [Demo.int_param "i"; Demo.bool_param "b"] (Some Scenario))
         0 "b" = Some (RVal (VInt 1)).
Proof. vm_compute. reflexivity. Qed.

Lemma design_generator_categorical_roundtrip_witness :
  ∃ objs o,
    design_generator
      [[RVal (VInt 2); RVal (VStr "green")]]
      [Demo.cat_param "c"; Demo.cat_param "d"] (Some Scenario) = Ok objs ∧
    objs !! 0%nat = Some o ∧
    nd_data o !! "d" = Some (RVal (VStr "green")) ∧
    nd_data o !! "c" = Some (RVal (VStr "blue")) ∧
    design_generator
      (raw_design [Demo.cat_param "c"; Demo.cat_param "d"] <$> objs)
      [Demo.cat_param "c"; Demo.cat_param "d"] (Some Scenario) = Ok objs.
Proof.
  destruct (design_generator
              [[RVal (VInt 2); RVal (VStr "green")]]
              [Demo.cat_param "c"; Demo.cat_param "d"] (Some Scenario))
    as [objs|e] eqn:E; [|vm_compute in E; discriminate].
  destruct (@design_generator_categorical_roundtrip Demo.py
              [[RVal (VInt 2); RVal (VStr "green")]]
              [Demo.cat_param "c"; Demo.cat_param "d"] Scenario objs)
    as [Hstored Hround].
  - compute_done.
  - exact E.
  - destruct (Hstored 0%nat 1%nat [RVal (VInt 2); RVal (VStr "green")]
                (Demo.cat_param "d") (RVal (VStr "green")) (VStr "green"))
      as (o & Ho & Hdirect & _); [reflexivity|reflexivity|reflexivity|
                                  reflexivity|by left|].
    destruct (Hstored 0%nat 0%nat [RVal (VInt 2); RVal (VStr "green")]
                (Demo.cat_param "c") (RVal (VInt 2)) (VInt 2))
      as (o' & Ho' & _ & Hindex); [reflexivity|reflexivity|reflexivity|
                                   reflexivity|by left|].
    assert (o' = o) as -> by congruence.
    exists objs, o. split; [reflexivity|]. split; [exact Ho|].
    split.
    { apply Hdirect.
      exists {| cat_name := "green"; cat_value := VStr "green" |}.
      split; [simpl; right; left|reflexivity]. }
    split; [|exact Hround].
    destruct Hindex as (index & c & Hi & H0 & Hc & Hs).
    { intros c Hc. simpl in Hc.
      repeat (apply elem_of_cons in Hc as [->|Hc]; [reflexivity|]).
      by apply elem_of_nil in Hc. }
    simpl in Hi. injection Hi as <-. simpl in Hc. injection Hc as <-.
    exact Hs.
Defined.

(** The index 2 is stored as the third category, and a category value as
    itself. *)
Example design_generator_categorical_example :
  stored (design_generator
            [[RVal (VInt 2); RVal (VStr "green")]]
            [Demo.cat_param "c"; Demo.cat_param "d"] (Some Scenario))
         0 "c" = Some (RVal (VStr "blue")) ∧
  stored (design_generator
            [[RVal (VInt 2); RVal (VStr "green")]]
            [Demo.cat_param "c"; Demo.cat_param "d"] (Some Scenario))
         0 "d" = Some (RVal (VStr "green")).
Proof. split; vm_compute; reflexivity. Qed.

Lemma generate_designs_unknown_distribution_witness :
  generate_designs (Base LHSSampler)
    [Demo.bad_param "b"; Demo.real_param "a" false] 2 Demo.w0 =
  (Raise (KeyError "lognormal"),
   {| cwd := "/home/user"; ext := (2%nat : @ext_state Demo.runtime);
      trace := [EvRandom "shuffle" 2; EvRandom "rvs" 2] |}).
Proof.
  rewrite (@generate_designs_unknown_distribution Demo.runtime LHSSampler
             [Demo.bad_param "b"; Demo.real_param "a" false] 2
             [Demo.real_param "a" false] (Demo.bad_param "b") [] Demo.w0).
  - vm_compute. reflexivity.
  - vm_compute. reflexivity.
  - vm_compute. reflexivity.
Defined.

(** The error does not come before all sampling: with a good parameter sorted before the one with the
    unknown distribution, the error comes after the good one was sampled; and
    the full factorial sampler, which never reads the distribution, raises
    nothing at all. *)
Lemma generate_designs_error_after_sampling :
  ¬ raises_untouched
      (generate_designs (Base LHSSampler)
         [Demo.real_param "a" false; Demo.bad_param "b"] 2) Demo.w0 ∧
  trace (generate_designs (Base LHSSampler)
           [Demo.real_param "a" false; Demo.bad_param "b"] 2 Demo.w0).2
    = [EvRandom "shuffle" 2; EvRandom "rvs" 2] ∧
  ¬ raises_untouched
      (generate_designs FullFactorialSampler
         [Demo.bad_param "b"] 2) Demo.w0.
Proof.
  split; [|split].
  - intros [e He]. vm_compute in He. discriminate.
  - vm_compute. reflexivity.
  - intros [e He]. vm_compute in He. discriminate.
Qed.

Lemma sequential_evaluate_restores_cwd_witness :
  ∃ callback' w',
    SequentialEvaluator_evaluate_experiments
      [Demo.the_model] (IList [implicit_scenario]) (IList [implicit_policy])
      (DefaultCallback_init [] [] ["y"] 1) Demo.w0 = (Ok callback', w') ∧
    cwd w' = "/home/user".
Proof.
  destruct (SequentialEvaluator_evaluate_experiments
              [Demo.the_model] (IList [implicit_scenario])
              (IList [implicit_policy])
              (DefaultCallback_init [] [] ["y"] 1) Demo.w0)
    as [[callback'|e] w'] eqn:E; [|vm_compute in E; discriminate].
  exists callback', w'. split; [reflexivity|].
  apply (sequential_evaluate_restores_cwd
           _ _ _ _ _ _ _ E).
Defined.

Lemma perform_experiments_nothing_to_run_witness :
  perform_experiments (OneModel Demo.the_model)
    (SpecInt 0) (SpecList []) None false false false "lhs" "lhs" Demo.w0
  = (Raise (EMAError "no experiments possible since both scenarios and policies are 0"),
     Demo.w0).
Proof.
  apply (perform_experiments_nothing_to_run);
    reflexivity.
Defined.

Lemma pool_exit_aborts_or_drains_witness :
  MultiprocessingPoolEvaluator_exit Demo.pool
    (Some (ModelError "run failed")) Demo.w0 =
  (Ok (ReturnFalse, set_pool Demo.pool TERMINATE),
   add_trace Demo.w0 [EvLog "terminating pool"; EvPoolTerminate]) ∧
  MultiprocessingPoolEvaluator_exit Demo.pool
    None Demo.w0 =
  (Ok (ReturnNone, set_pool Demo.pool CLOSE),
   add_trace Demo.w0 [EvLog "terminating pool"; EvPoolClose; EvPoolJoin]).
Proof.
  destruct (pool_exit_aborts_or_drains
              Demo.pool RUN Demo.w0 eq_refl) as (Habort & Hdrain & _).
  split; [apply Habort | exact Hdrain].
Defined.

(** A pool whose workers never call back: the run is reported as failed. *)
Lemma perform_experiments_incomplete_is_fatal_witness :
  ∃ w',
    perform_experiments (OneModel Demo.the_model)
      (SpecInt 0) (SpecInt 2)
      (Some (MultiprocessingPoolEvaluator_evaluate_experiments Demo.pool))
      false false false "lhs" "lhs" Demo.w0
    = (Raise (EMAError "some fatal error has occurred while running the experiments, not all runs have completed"), w').
Proof.
  eexists.
  eapply (proj2 (perform_experiments_incomplete_is_fatal
                   (OneModel Demo.the_model)
                   (SpecInt 0) (SpecInt 2) false false false "lhs" "lhs"
                   Demo.w0)).
  - reflexivity.
  - vm_compute. reflexivity.
  - vm_compute. reflexivity.
  - vm_compute. reflexivity.
  - vm_compute. discriminate.
Defined.


(** Full factorial sampling of two real parameters at 3 levels gives 9
    designs; of one parameter with 3 categories it gives 3, whatever the
    requested number. *)
Example full_factorial_examples :
  (λ d, (n d, length (designs d))) <$>
    generate_designs_ff [Demo.real_param "a" false; Demo.real_param "b" false] 3
    = Ok (9%nat, 9%nat) ∧
  (λ d, (n d, length (designs d))) <$> generate_designs_ff [Demo.cat_param "c"] 7
    = Ok (3%nat, 3%nat).
Proof. split; vm_compute; reflexivity. Qed.

(** A partial factorial design of two factorial parameters with 3 declared
    levels each and a sampled parameter with 5 samples reports, and yields,
    9 x 5 = 45 designs. *)
Example partial_factorial_example :
  ∃ ds w',
    generate_designs (PartialFactorialSampler LHSSampler)
      [Demo.grid_param "a"; Demo.grid_param "b";
       Demo.real_param "u" false] 5 Demo.w0 = (Ok ds, w') ∧
    reported_n ds = 45%nat ∧
    length <$> result_to_option (iter_designs (set_kind ds Policy)) = Some 45%nat.
Proof.
  eexists _, _. split; [vm_compute; reflexivity|].
  split; vm_compute; reflexivity.
Qed.

Lemma lhs_uniform_sample_outside_every_stratum_witness :
  ∃ v, B64._lhs DemoB64.shuffle DemoB64.random_sample B64.stats_uniform
         [0; 1]%float 2 [0.25; 1 - 0x1p-53]%float
       = (Ok (NdArray v), []) ∧
       length v = 2%nat ∧
       v !! 1%nat = Some 1%float ∧
       (∀ i, (i < 2)%nat → B64.in_stratum 2 i 1 = false).
Proof.
  apply (lhs_uniform_sample_outside_every_stratum
           DemoB64.shuffle DemoB64.random_sample
           [0.25; 1 - 0x1p-53]%float [0.25; 1 - 0x1p-53]%float []
           [0; 0.5]%float [0.25; 1 - 0x1p-53]%float 1);
    reflexivity.
Defined.

(** Latin Hypercube samples of the uniform distribution on [[0, 1)], with
    the order left alone. Two samples, the second draw 1 - 2^-53: the
    samples are 0.125 and 1.0, so the stratum [[1/2, 1)] holds none. Three
    samples, the draws 0.25, 0 and 0: the second and third sample are the
    floats nearest to 1/3 and 2/3, which are below them, so the first
    stratum holds two samples and the last one none. One sample: a scalar. *)
Example lhs_uniform_examples :
  B64._lhs DemoB64.shuffle DemoB64.random_sample B64.stats_uniform
    [0; 1]%float 2 [0.25; 1 - 0x1p-53]%float
  = (Ok (NdArray [0.125; 1]%float), []) ∧
  (λ i, B64.count_in_stratum 2 i [0.125; 1]%float) <$> [0; 1]%nat
  = [1; 0]%nat ∧
  B64._lhs DemoB64.shuffle DemoB64.random_sample B64.stats_uniform
    [0; 1]%float 3 [0.25; 0; 0]%float
  = (Ok (NdArray [0x1.5555555555555p-4; 0x1.5555555555555p-2;
                  0x1.5555555555555p-1]%float), []) ∧
  (λ i, B64.count_in_stratum 3 i
          [0x1.5555555555555p-4; 0x1.5555555555555p-2;
           0x1.5555555555555p-1]%float) <$> [0; 1; 2]%nat
  = [2; 1; 0]%nat ∧
  B64._lhs DemoB64.shuffle DemoB64.random_sample B64.stats_uniform
    [0; 1]%float 1 [0.25]%float
  = (Ok (NdScalar 0.25%float), []).
Proof. repeat split; vm_compute; reflexivity. Qed.

(** The same two draws over the uniform distribution on [[1, 2)]: the second
    sample is 2.0, the upper bound. *)
Example lhs_uniform_upper_bound_example :
  B64._lhs DemoB64.shuffle DemoB64.random_sample B64.stats_uniform
    [1; 1]%float 2 [0.25; 1 - 0x1p-53]%float
  = (Ok (NdArray [1.125; 2]%float), []).
Proof. vm_compute; reflexivity. Qed.

(** ** Further properties on concrete inputs *)

Lemma generate_designs_count_witness :
  ∃ ds w' objs,
    generate_designs FullFactorialSampler
      [Demo.grid_param "a"; Demo.real_param "b" false] 4 Demo.w0 = (Ok ds, w') ∧
    iter_designs (set_kind ds Scenario) = Ok objs ∧
    length objs = reported_n ds ∧
    reported_n ds
    = nr_of_levels [Demo.grid_param "a"; Demo.real_param "b" false] 4.
Proof.
  eexists _, _, _.
  split; [vm_compute; reflexivity|]. split; [vm_compute; reflexivity|].
  eapply (@generate_designs_count Demo.runtime Demo_laws FullFactorialSampler
            [Demo.grid_param "a"; Demo.real_param "b" false] 4 Demo.w0
            _ _ Scenario).
  - compute_done.
  - discriminate.
  - intros sub Hs. discriminate.
  - vm_compute. reflexivity.
  - vm_compute. reflexivity.
Defined.


Lemma generated_designs_kind_witness :
  ∃ ds w',
    generate_designs (Base MonteCarloSampler) [Demo.real_param "a" false] 2
      Demo.w0 = (Ok ds, w') ∧
    (∀ k objs o,
       iter_designs (set_kind ds k) = Ok objs → o ∈ objs → nd_kind o = k) ∧
    (∀ objs, iter_designs ds = Ok objs → objs = []).
Proof.
  destruct (generate_designs (Base MonteCarloSampler)
              [Demo.real_param "a" false] 2 Demo.w0)
    as [[ds|e] w'] eqn:E; [|vm_compute in E; discriminate].
  exists ds, w'. split; [reflexivity|].
  exact (@generated_designs_kind Demo.runtime (Base MonteCarloSampler)
           [Demo.real_param "a" false] 2 Demo.w0 ds w' E).
Defined.


Lemma generate_designs_order_independent_witness :
  (∀ d w',
     generate_designs (Base LHSSampler)
       [Demo.real_param "b" false; Demo.real_param "a" false] 2 Demo.w0
     = (Ok (DD d), w') →
     StronglySorted name_le (parameters d) ∧
     parameters d ≡ₚ [Demo.real_param "b" false; Demo.real_param "a" false]) ∧
  (∀ ps',
     NoDup (name <$> [Demo.real_param "b" false; Demo.real_param "a" false]) →
     [Demo.real_param "b" false; Demo.real_param "a" false] ≡ₚ ps' →
     generate_designs (Base LHSSampler)
       [Demo.real_param "b" false; Demo.real_param "a" false] 2 Demo.w0
     = generate_designs (Base LHSSampler) ps' 2 Demo.w0).
Proof.
  apply (@generate_designs_order_independent Demo.runtime (Base LHSSampler)
           [Demo.real_param "b" false; Demo.real_param "a" false] 2 Demo.w0).
  intros sub. discriminate.
Defined.

Lemma full_factorial_designs_are_the_combinations_witness :
  ∃ d,
    generate_designs_ff [Demo.grid_param "a"; Demo.int_param "i"] 2 = Ok d ∧
    (∀ design,
       design ∈ designs d ↔
       ∃ t, design = RVal <$> t ∧
            Forall2 (λ x p, x ∈ ff_cats p 2) t
              (sorted_by_name [Demo.grid_param "a"; Demo.int_param "i"])) ∧
    ((∀ p, p ∈ [Demo.grid_param "a"; Demo.int_param "i"] →
           NoDup (ff_cats p 2)) →
     NoDup (designs d)).
Proof.
  apply (full_factorial_designs_are_the_combinations
           [Demo.grid_param "a"; Demo.int_param "i"] 2).
  compute_done.
Defined.

Lemma uniform_lhs_ignores_shape_witness :
  sample UniformLHSSampler "pert" ([5; -1] ++ [0; 10])%Q 2 Demo.w0
  = sample LHSSampler "uniform" [0; 10]%Q 2 Demo.w0 ∧
  (∀ e w',
     sample UniformLHSSampler "pert" ([5; -1] ++ [0; 10])%Q 2 Demo.w0
     = (Raise e, w') →
     2%nat = 0%nat ∧ e = ZeroDivisionError ∧ w' = Demo.w0).
Proof.
  apply (@uniform_lhs_ignores_shape Demo.runtime "pert"
           [5; -1]%Q 0 10 2 Demo.w0).
  compute_done.
Defined.

(** With a peak outside the support and a negative shape, the PERT
    distribution is refused by the Latin Hypercube sampler and sampled as a
    uniform one by the uniform-only sampler. *)
Example uniform_lhs_example :
  (∃ e w', sample LHSSampler "pert" [5; -1; 0; 10]%Q 2 Demo.w0 = (Raise e, w')) ∧
  (∃ xs w', sample UniformLHSSampler "pert" [5; -1; 0; 10]%Q 2 Demo.w0
            = (Ok (NdArray xs), w') ∧ length xs = 2%nat).
Proof.
  split; [eexists _, _|eexists _, _; split]; vm_compute; reflexivity.
Qed.

Lemma invalid_distribution_arguments_witness :
  sample MonteCarloSampler "pert" [5; 4; 0; 1]%Q 2 Demo.w0
  = (Raise (AssertionError
              "PERT peak must be greater than low and less than high"),
     Demo.w0) ∧
  ∃ w', sample LHSSampler "pert" [5; 4; 0; 1]%Q 2 Demo.w0
        = (Raise (AssertionError
                    "PERT peak must be greater than low and less than high"),
           w') ∧
        cwd w' = cwd Demo.w0 ∧
        trace w' = trace Demo.w0 ++ [EvRandom "shuffle" 2; EvRandom "rvs" 2].
Proof.
  apply (@invalid_distribution_arguments Demo.runtime Demo_laws "pert"
           ctor_pert2 [5; 4; 0; 1]%Q 2).
  - reflexivity.
  - vm_compute. reflexivity.
  - lia.
Defined.

Lemma latin_hypercube_of_zero_samples_witness :
  generate_designs (Base LHSSampler)
    [Demo.real_param "b" false; Demo.real_param "a" false] 0 Demo.w0
  = (Raise ZeroDivisionError, Demo.w0).
Proof.
  apply (@latin_hypercube_of_zero_samples Demo.runtime LHSSampler).
  - discriminate.
  - discriminate.
  - intros p Hp. apply elem_of_cons in Hp as [->|Hp].
    { vm_compute. eauto. }
    apply list_elem_of_singleton in Hp as ->. vm_compute. eauto.
Defined.

Lemma latin_hypercube_of_one_sample_witness :
  ∃ w',
    generate_designs (Base LHSSampler)
      [Demo.real_param "b" false; Demo.real_param "a" false] 1 Demo.w0
    = (Raise (TypeError "'numpy.float64' object is not iterable"), w') ∧
    cwd w' = cwd Demo.w0 ∧
    trace w' = trace Demo.w0
                 ++ concat (replicate
                              (length [Demo.real_param "b" false;
                                       Demo.real_param "a" false])
                              [EvRandom "shuffle" 1; EvRandom "rvs" 1]).
Proof.
  apply (@latin_hypercube_of_one_sample Demo.runtime Demo_laws LHSSampler).
  - discriminate.
  - discriminate.
  - intros p Hp. exists stats_uniform.
    apply elem_of_cons in Hp as [->|Hp].
    { eexists. split; vm_compute; reflexivity. }
    apply list_elem_of_singleton in Hp as ->.
    eexists. split; vm_compute; reflexivity.
Defined.

(** Two samples come back as an array and make two designs. *)
Example latin_hypercube_of_two_samples :
  ∃ d w',
    generate_designs (Base LHSSampler) [Demo.real_param "a" false] 2 Demo.w0
    = (Ok (DD d), w') ∧ length (designs d) = 2%nat.
Proof. eexists _, _. split; vm_compute; reflexivity. Qed.

Lemma sequential_evaluator_runs_all_in_order_witness :
  ∃ cb' w' exps,
    SequentialEvaluator_evaluate_experiments [Demo.the_model]
      (IList [implicit_scenario]) (IList [implicit_policy])
      (DefaultCallback_init [] [] ["y"] 1) Demo.w0 = (Ok cb', w') ∧
    experiment_generator (IList [implicit_scenario]) [Demo.the_model]
      (IList [implicit_policy]) = Ok exps ∧
    trace w' = trace Demo.w0 ++ [EvLog "performing experiments sequentially"]
                 ++ (EvRunExperiment <$> (experiment_id <$> exps))
                 ++ [EvRunnerCleanup].
Proof.
  destruct (SequentialEvaluator_evaluate_experiments [Demo.the_model]
              (IList [implicit_scenario]) (IList [implicit_policy])
              (DefaultCallback_init [] [] ["y"] 1) Demo.w0)
    as [[cb'|e] w'] eqn:E; [|vm_compute in E; discriminate].
  destruct (sequential_evaluator_runs_all_in_order _ _ _ _ _ _ _ E)
    as (exps & Hg & Ht).
  exists cb', w', exps. done.
Defined.

Lemma sequential_evaluator_failure_skips_cleanup_witness :
  ∃ e w',
    @SequentialEvaluator_evaluate_experiments _ Demo.failing_model
      [Demo.the_model] (IList [implicit_scenario]) (IList [implicit_policy])
      (DefaultCallback_init [] [] ["y"] 1) Demo.w0 = (Raise e, w') ∧
    ((∃ started,
        trace w' = trace Demo.w0 ++ EvLog "performing experiments sequentially"
                     :: (EvRunExperiment <$> (experiment_id <$> started)) ∧
        (∀ exps,
           experiment_generator (IList [implicit_scenario]) [Demo.the_model]
             (IList [implicit_policy]) = Ok exps →
           started `prefix_of` exps))
     ∨ (∃ exps w1,
          experiment_generator (IList [implicit_scenario]) [Demo.the_model]
            (IList [implicit_policy]) = Ok exps ∧
          trace w1
          = trace Demo.w0 ++ EvLog "performing experiments sequentially"
              :: (EvRunExperiment <$> (experiment_id <$> exps)) ∧
          trace w' = trace w1 ++ [EvRunnerCleanup] ∧
          ((@runner_cleanup _ Demo.failing_model (cwd w1, ext w1)
            = (Raise e, (cwd w', ext w')))
           ∨ (e = OSError "No such file or directory" ∧
              @dir_exists _ Demo.failing_model (cwd Demo.w0) (ext w') = false ∧
              @runner_cleanup _ Demo.failing_model (cwd w1, ext w1)
              = (Ok tt, (cwd w', ext w')))))).
Proof.
  destruct (@SequentialEvaluator_evaluate_experiments _ Demo.failing_model
              [Demo.the_model] (IList [implicit_scenario])
              (IList [implicit_policy])
              (DefaultCallback_init [] [] ["y"] 1) Demo.w0)
    as [[cb'|e] w'] eqn:E; [vm_compute in E; discriminate|].
  exists e, w'. split; [reflexivity|].
  exact (@sequential_evaluator_failure_skips_cleanup _ Demo.failing_model
           _ _ _ _ _ _ _ E).
Defined.

(** A model that fails: the failure comes out, the runner is not cleaned up
    and the process stays in the directory of the model. A clean-up that
    fails: the process stays where the runs left it. *)
Example sequential_evaluator_failure_examples :
  @SequentialEvaluator_evaluate_experiments _ Demo.failing_model
    [Demo.the_model] (IList [implicit_scenario]) (IList [implicit_policy])
    (DefaultCallback_init [] [] ["y"] 1) Demo.w0
  = (Raise (ModelError "the model failed"),
     {| cwd := "/tmp/model"; ext := ext Demo.w0;
        trace := [EvLog "performing experiments sequentially";
                  EvRunExperiment 0] |}) ∧
  @SequentialEvaluator_evaluate_experiments _ Demo.failing_cleanup
    [Demo.the_model] (IList [implicit_scenario]) (IList [implicit_policy])
    (DefaultCallback_init [] [] ["y"] 1) Demo.w0
  = (Raise (ModelError "the clean-up failed"),
     {| cwd := "/tmp/model"; ext := ext Demo.w0;
        trace := [EvLog "performing experiments sequentially";
                  EvRunExperiment 0; EvRunnerCleanup] |}).
Proof. split; vm_compute; reflexivity. Qed.

Lemma perform_experiments_unknown_sampler_witness :
  (∀ policies,
     perform_experiments (OneModel Demo.the_model) (SpecInt 3) policies None
       false false false "halton" "lhs" Demo.w0
     = (Raise (KeyError "halton"), Demo.w0)) ∧
  (∀ scenarios x w1,
     resolve_scenarios (OneModel Demo.the_model) scenarios false "lhs" Demo.w0
       = (Ok x, w1) →
     perform_experiments (OneModel Demo.the_model) scenarios (SpecInt 3) None
       false false false "lhs" "halton" Demo.w0
     = (Raise (KeyError "halton"), w1)).
Proof.
  apply (perform_experiments_unknown_sampler (OneModel Demo.the_model) None
           false false false "halton" "lhs" 2 Demo.w0).
  reflexivity.
Defined.

(** A body that fails inside the pool's [with] block: the pool is terminated
    and the failure comes out. *)
Example with_pool_example :
  with_pool Demo.pool (λ _, raise (A:=unit) (ValueError "boom")) Demo.w0
  = (Raise (ValueError "boom"),
     add_trace Demo.w0 [EvPoolStart; EvLog "pool started";
                        EvLog "terminating pool"; EvPoolTerminate]).
Proof. vm_compute. reflexivity. Qed.


Lemma demo_tree_well_formed : Cart.well_formed DemoTree.left DemoTree.right.
Proof.
  split; [reflexivity|]. split; [|split].
  - intros p c Hp.
    destruct p as [|[|[|[|[|p]]]]]; simpl in Hp;
      destruct Hp as [Hp|Hp]; try discriminate;
      injection Hp as <-; simpl; lia.
  - compute_done.
  - intros c Hc. simpl in Hc.
    destruct c as [|[|[|[|[|c]]]]]; [lia| | | | |lia]; compute_done.
Qed.

Lemma recurse_returns_the_path_from_the_root_witness :
  ∃ path,
    Cart.recurse 4 DemoTree.left DemoTree.right DemoTree.threshold DemoTree.features 4 []
      = Some (Ok path) ∧
    path ≠ [] ∧
    Cart.is_path DemoTree.left DemoTree.right DemoTree.threshold DemoTree.features 0 path 4.
Proof.
  apply (recurse_returns_the_path_from_the_root DemoTree.left DemoTree.right
           DemoTree.threshold DemoTree.features 4 4).
  - exact demo_tree_well_formed.
  - reflexivity.
  - reflexivity.
  - simpl. lia.
  - lia.
Defined.

(** The lineage of the last leaf of the tree of five nodes: right at the
    root, right again at node 2. *)
Example recurse_example :
  Cart.recurse 4 DemoTree.left DemoTree.right DemoTree.threshold DemoTree.features 4 []
  = Some (Ok [(0%nat, "r", 1 # 2, "x"); (2%nat, "r", 3 # 2, "y")]%Q).
Proof. reflexivity. Qed.

Lemma recurse_of_the_root_raises_witness :
  Cart.recurse 1 [-1]%Z [-1]%Z [(-2)%Q] ["x"] 0 []
  = Some (Raise (ValueError
                   "can only convert an array of size 1 to a Python scalar")) ∧
  (∀ t, Cart.children_left t = [(-1)%Z] → Cart.leafs t = [0%nat]).
Proof.
  apply (recurse_of_the_root_raises [-1]%Z [-1]%Z [(-2)%Q] ["x"] 0 []).
  - compute_done.
  - compute_done.
Defined.

Lemma features_of_leaves_witness :
  ((length ["x"] < 2)%nat →
   ∃ msg,
     Cart.features ["x"]
       {| Cart.children_left := [1; -1; -1]%Z;
          Cart.children_right := [2; -1; -1]%Z;
          Cart.threshold := [1 # 2; -2; -2]%Q;
          Cart.feature := [0; -2; -2]%Z |} = Raise (IndexError msg)) ∧
  ((2 ≤ length ["x"])%nat →
   Forall (λ f, f = (-2)%Z ∨ (0 ≤ f < Z.of_nat (length ["x"]))%Z)
          [0; -2; -2]%Z →
   ∃ fs,
     Cart.features ["x"]
       {| Cart.children_left := [1; -1; -1]%Z;
          Cart.children_right := [2; -1; -1]%Z;
          Cart.threshold := [1 # 2; -2; -2]%Q;
          Cart.feature := [0; -2; -2]%Z |} = Ok fs ∧
     length fs = length [0; -2; -2]%Z ∧
     ∀ i, [0; -2; -2]%Z !! i = Some (-2)%Z →
          fs !! i = ["x"] !! (length ["x"] - 2)%nat).
Proof.
  apply (features_of_leaves ["x"]
           {| Cart.children_left := [1; -1; -1]%Z;
              Cart.children_right := [2; -1; -1]%Z;
              Cart.threshold := [1 # 2; -2; -2]%Q;
              Cart.feature := [0; -2; -2]%Z |}).
  compute_done.
Defined.

(** A tree fitted on a single column: the look-up of the features fails. *)
Example features_example :
  Cart.features ["x"]
    {| Cart.children_left := [1; -1; -1]%Z;
       Cart.children_right := [2; -1; -1]%Z;
       Cart.threshold := [1 # 2; -2; -2]%Q;
       Cart.feature := [0; -2; -2]%Z |}
  = Raise (IndexError "list index out of range") ∧
  Cart.features ["x"; "y"]
    {| Cart.children_left := [1; -1; -1]%Z;
       Cart.children_right := [2; -1; -1]%Z;
       Cart.threshold := [1 # 2; -2; -2]%Q;
       Cart.feature := [0; -2; -2]%Z |}
  = Ok ["x"; "x"; "x"].
Proof. split; reflexivity. Qed.
